(** * Sale processing of the inventory / point-of-sale backend

    A shallow embedding of [src/routes/sales.js] (POST /api/sales and
    DELETE /api/sales/:id), of the stock-status computation of the
    product routes (POST and PUT /api/products, second half of
    [src/routes/auth.js]) and of the part of the SQLite schema that these
    handlers touch ([initDatabase], second half of [src/routes/users.js]).

    Modelling conventions.
    - The single SQLite connection [db] is a value of type [database]:
      the visible contents of the tables, the snapshot taken by
      BEGIN TRANSACTION (if a transaction is open) and the
      connection-level [last_insert_rowid].
    - Statements run to completion in the order in which the handler
      issues them, and a handler runs from its first statement to its
      response without another handler in between: the scheduling of the
      driver and concurrent requests are outside the model.
    - JSON numbers are integers ([Z]); the columns [updated_at] and
      [created_at] are not represented.
    - A row holds the values that the handler binds to its INSERT; the
      affinity of the column types is not applied (a bound number is what
      a REAL column stores; what it makes of a bound text is not
      represented).
    - A statement that a constraint rejects leaves the database as it
      was, and so do BEGIN inside and ROLLBACK outside a transaction.
      The statement functions, and the handlers [createSale] and
      [voidSale] built from them, describe the statements only.  What the
      driver does with the error of a statement that was run without a
      callback (an 'error' event, for which the program has no listener)
      is added by [createSale_served], which agrees with [createSale]
      whenever no such statement fails. *)

From stdpp Require Import gmap strings list fin_maps.
From Stdlib Require Import ZArith Lia DecimalString.

Local Open Scope Z_scope.

(** ** JavaScript values of the request body *)

(** The scalar JSON values a body field can hold ([JUndefined] stands for
    an absent field). *)
Inductive jsval :=
| JUndefined
| JNull
| JBool (b : bool)
| JNum (n : Z)
| JStr (s : string).

Global Instance jsval_eq_dec : EqDecision jsval.
Proof. solve_decision. Defined.

(** JavaScript truthiness: [!v] is [negb (truthy v)]. *)
Definition truthy (v : jsval) : bool :=
  match v with
  | JUndefined => false
  | JNull => false
  | JBool b => b
  | JNum n => negb (n =? 0)
  | JStr s => negb (String.eqb s "")
  end.

(** [a || b] on JavaScript values. *)
Definition js_or (a b : jsval) : jsval := if truthy a then a else b.

(** ** Rows and request payloads *)

Inductive stock_status := in_stock | low_stock | out_of_stock.

Global Instance stock_status_eq_dec : EqDecision stock_status.
Proof. solve_decision. Defined.

Module Product.
(** A row of [products] (the columns the sale handlers read or write). *)
Record t := mk {
  id : Z;
  name : string;
  quantity : Z;
  min_stock : Z;
  status : stock_status
}.
End Product.

Module Item.
(** One element of [req.body.items]. *)
Record t := mk {
  product_id : Z;
  quantity : Z;
  price : Z;
  total : jsval
}.
End Item.

Module Sale.
(** A row of [sales]. *)
Record t := mk {
  id : Z;
  invoice_number : string;
  user_id : Z;
  customer_name : jsval;
  subtotal : jsval;
  tax : jsval;
  discount : jsval;
  grand_total : jsval;
  payment_method : jsval
}.
End Sale.

Module SaleItem.
(** A row of [sale_items]. *)
Record t := mk {
  id : Z;
  sale_id : Z;
  product_id : Z;
  quantity : Z;
  price : Z;
  total : jsval
}.
End SaleItem.

(** [req.body.items]: a scalar (or absent), a non-array object, or an
    array of items. *)
Inductive items_val :=
| ItemsScalar (v : jsval)
| ItemsObject
| ItemsArray (l : list Item.t).

Module Body.
(** The destructured [req.body] of POST /api/sales. *)
Record t := mk {
  customer_name : jsval;
  items : items_val;
  subtotal : jsval;
  tax : jsval;
  discount : jsval;
  grand_total : jsval;
  payment_method : jsval
}.
End Body.

(** ** The database *)

Record tables := mkTables {
  users : gset Z;                      (* ids of the rows of [users] *)
  products : gmap Z Product.t;         (* keyed by the primary key *)
  sales : list Sale.t;
  sales_seq : Z;                       (* sqlite_sequence entry of [sales] *)
  sale_items : list SaleItem.t;
  sale_items_seq : Z                   (* sqlite_sequence entry of [sale_items] *)
}.

Record database := mkDb {
  cur : tables;                        (* what the connection sees *)
  txn : option tables;                 (* snapshot of the open transaction *)
  last_insert_rowid : Z
}.

Definition with_cur (d : database) (t : tables) : database :=
  mkDb t (txn d) (last_insert_rowid d).

(** *** Transaction control *)

(** [BEGIN TRANSACTION]; fails (state unchanged) inside a transaction. *)
Definition begin_transaction (d : database) : database :=
  match txn d with
  | None => mkDb (cur d) (Some (cur d)) (last_insert_rowid d)
  | Some _ => d
  end.

(** [ROLLBACK]; fails (state unchanged) outside a transaction.  The
    connection's [last_insert_rowid] is not part of what is rolled back. *)
Definition rollback (d : database) : database :=
  match txn d with
  | Some snap => mkDb snap None (last_insert_rowid d)
  | None => d
  end.

(** [COMMIT]; the boolean is the callback's [commitErr]. *)
Definition commit (d : database) : database * bool :=
  match txn d with
  | Some _ => (mkDb (cur d) None (last_insert_rowid d), false)
  | None => (d, true)
  end.

(** *** Statements on [sales] and [sale_items] *)

(** The rowid an AUTOINCREMENT table gives to its next row: one more than
    the largest rowid that ever existed in the table. *)
Definition next_rowid (seq : Z) (ids : list Z) : Z :=
  foldr Z.max seq ids + 1.

Definition payment_methods : list string := ["cash"; "card"; "online"]%string.

(** [CHECK(payment_method IN ('cash', 'card', 'online'))] on a bound
    non-NULL value. *)
Definition payment_method_ok (v : jsval) : bool :=
  match v with
  | JStr s => bool_decide (s ∈ payment_methods)
  | _ => false
  end.

(** The constraints of [sales] that an INSERT of the handler can violate:
    UNIQUE(invoice_number), the CHECK on payment_method and the foreign
    key on user_id. *)
Definition sales_insert_ok (t : tables) (invoice : string) (user : Z)
    (method : jsval) : bool :=
  bool_decide (invoice ∉ Sale.invoice_number <$> sales t)
  && payment_method_ok method
  && bool_decide (user ∈ users t).

(** [INSERT INTO sales (invoice_number, user_id, customer_name, subtotal,
    tax, discount, grand_total, payment_method) VALUES (...)].  The new
    row holds the values bound to the statement; a rejected INSERT
    changes nothing (how its error is reported is not the statement's
    concern, see [createSale_served]). *)
Definition insert_sale (d : database) (invoice : string) (user : Z)
    (customer sub tx disc grand method : jsval) : database :=
  let t := cur d in
  if sales_insert_ok t invoice user method then
    let rowid := next_rowid (sales_seq t) (Sale.id <$> sales t) in
    let row := Sale.mk rowid invoice user customer sub tx disc grand method in
    mkDb (mkTables (users t) (products t) (sales t ++ [row]) rowid
            (sale_items t) (sale_items_seq t))
         (txn d) rowid
  else d.

(** [SELECT last_insert_rowid() as id]: always yields one row. *)
Definition select_last_insert_rowid (d : database) : option Z :=
  Some (last_insert_rowid d).

(** The foreign keys of [sale_items]: the sale and the product exist. *)
Definition sale_items_insert_ok (t : tables) (sale product : Z) : bool :=
  bool_decide (sale ∈ Sale.id <$> sales t)
  && bool_decide (is_Some (products t !! product)).

(** [INSERT INTO sale_items (sale_id, product_id, quantity, price, total)
    VALUES (?, ?, ?, ?, ?)]. *)
Definition insert_sale_item (d : database) (sale product qty prc : Z)
    (tot : jsval) : database :=
  let t := cur d in
  if sale_items_insert_ok t sale product then
    let rowid := next_rowid (sale_items_seq t) (SaleItem.id <$> sale_items t) in
    let row := SaleItem.mk rowid sale product qty prc tot in
    mkDb (mkTables (users t) (products t) (sales t) (sales_seq t)
            (sale_items t ++ [row]) rowid)
         (txn d) rowid
  else d.

(** *** Statements on [products] *)

(** [SELECT quantity, min_stock, name FROM products WHERE id = ?]. *)
Definition select_product (d : database) (pid : Z) : option Product.t :=
  products (cur d) !! pid.

Definition set_products (d : database) (m : gmap Z Product.t) : database :=
  let t := cur d in
  with_cur d (mkTables (users t) m (sales t) (sales_seq t)
                (sale_items t) (sale_items_seq t)).

(** [UPDATE products SET quantity = ?, status = ?, updated_at = ... WHERE id = ?]. *)
Definition update_product (d : database) (newQty : Z) (newStatus : stock_status)
    (pid : Z) : database :=
  set_products d
    (alter (λ p, Product.mk (Product.id p) (Product.name p) newQty
                   (Product.min_stock p) newStatus) pid (products (cur d))).

(** [UPDATE products SET quantity = quantity + ?, updated_at = ... WHERE id = ?]. *)
Definition restore_stock (d : database) (qty : Z) (pid : Z) : database :=
  set_products d
    (alter (λ p, Product.mk (Product.id p) (Product.name p)
                   (Product.quantity p + qty) (Product.min_stock p)
                   (Product.status p)) pid (products (cur d))).

(** [SELECT product_id, quantity FROM sale_items WHERE sale_id = ?]. *)
Definition select_sale_items (d : database) (sid : Z) : list SaleItem.t :=
  filter (λ r, SaleItem.sale_id r = sid) (sale_items (cur d)).

(** [DELETE FROM sale_items WHERE sale_id = ?]. *)
Definition delete_sale_items (d : database) (sid : Z) : database :=
  let t := cur d in
  with_cur d (mkTables (users t) (products t) (sales t) (sales_seq t)
                (filter (λ r, SaleItem.sale_id r ≠ sid) (sale_items t))
                (sale_items_seq t)).

(** [DELETE FROM sales WHERE id = ?], with the ON DELETE CASCADE of
    [sale_items.sale_id]; the number is the callback's [this.changes]. *)
Definition delete_sale (d : database) (sid : Z) : database * nat :=
  let t := cur d in
  let changes := length (filter (λ s, Sale.id s = sid) (sales t)) in
  let t' := mkTables (users t) (products t)
              (filter (λ s, Sale.id s ≠ sid) (sales t)) (sales_seq t)
              (if bool_decide (changes = 0%nat) then sale_items t
               else filter (λ r, SaleItem.sale_id r ≠ sid) (sale_items t))
              (sale_items_seq t) in
  (with_cur d t', changes).

(** ** Responses *)

(** The [error] strings of the two handlers, before rendering. *)
Inductive message :=
| NoItemsProvided
| GrandTotalRequired
| FailedToCreateSaleRecord
| TransactionFailed
| ProductNotFound (product_id : Z)
| NotEnoughStock (name : string) (available requested : Z)
| SaleNotFound.

Inductive payload :=
| Failure (error : message)                       (* { success: false, error } *)
| SaleCompleted (invoiceNumber : string) (saleId : Z)
    (itemsCount : nat) (grandTotal : jsval)       (* { success: true, ... } *)
| SaleVoided.                                     (* { success: true, message } *)

(** [res.status(code).json(body)]. *)
Inductive response := Response (code : Z) (body : payload).

Definition decimal (n : Z) : string := NilZero.string_of_int (Z.to_int n).

(** The text of each [error] template literal. *)
Definition render (m : message) : string :=
  match m with
  | NoItemsProvided => "No items provided."
  | GrandTotalRequired => "Grand total is required."
  | FailedToCreateSaleRecord => "Failed to create sale record."
  | TransactionFailed => "Transaction failed."
  | ProductNotFound pid => "Product ID " +:+ decimal pid +:+ " not found."
  | NotEnoughStock name available requested =>
      "Not enough stock for " +:+ String (Ascii.ascii_of_nat 34) name
      +:+ String (Ascii.ascii_of_nat 34) ". Available: " +:+ decimal available
      +:+ ", Requested: " +:+ decimal requested
  | SaleNotFound => "Sale not found."
  end.

(** ** Stock status *)

(** [newStatus] of [processNext] (sales.js, step 3c). *)
Definition newStatus (newQty min_stock : Z) : stock_status :=
  if newQty =? 0 then out_of_stock
  else if newQty <=? min_stock then low_stock
  else in_stock.

(** [parseInt(x) || dflt], given the result of [parseInt] ([None] is NaN). *)
Definition parsed_or (parsed : option Z) (dflt : Z) : Z :=
  match parsed with
  | Some n => if n =? 0 then dflt else n
  | None => dflt
  end.

(** [status] of POST /api/products, from the parsed [quantity] and
    [min_stock] fields. *)
Definition post_status (quantity min_stock : option Z) : stock_status :=
  let qty := parsed_or quantity 0 in
  let minStock := parsed_or min_stock 5 in
  if qty =? 0 then out_of_stock
  else if qty <=? minStock then low_stock
  else in_stock.

(** [status] of PUT /api/products/:id. *)
Definition put_status (quantity min_stock : option Z) : stock_status :=
  let qty := parsed_or quantity 0 in
  let minStock := parsed_or min_stock 5 in
  if qty =? 0 then out_of_stock
  else if qty <=? minStock then low_stock
  else in_stock.

(** The derivation rule in the words of the specification:
    out_of_stock iff quantity = 0, low_stock iff 0 < quantity <= min_stock,
    else in_stock. *)
Definition spec_deriveStatus (quantity minStock : Z) : stock_status :=
  if decide (quantity = 0) then out_of_stock
  else if decide (0 < quantity ∧ quantity ≤ minStock) then low_stock
  else in_stock.

(** ** POST /api/sales *)

Definition items_truthy (v : items_val) : bool :=
  match v with
  | ItemsScalar s => truthy s
  | ItemsObject => true
  | ItemsArray _ => true
  end.

Definition is_array (v : items_val) : bool :=
  match v with
  | ItemsArray _ => true
  | _ => false
  end.

(** [items.length] once [items] is known to be an array. *)
Definition items_list (v : items_val) : list Item.t :=
  match v with
  | ItemsArray l => l
  | _ => []
  end.

Section ProcessNext.
(** The variables [processNext] closes over. *)
Variables (invoiceNumber : string) (saleId : Z) (itemsCount : nat)
          (grand_total : jsval).

(** Steps 3a to 3c for [item]: [inl] when the loop goes on, [inr] when
    the handler has rolled back and responded. *)
Definition processItem (item : Item.t) (d : database)
    : database + database * response :=
  match select_product d (Item.product_id item) with
  | None =>
      inr (rollback d,
           Response 400 (Failure (ProductNotFound (Item.product_id item))))
  | Some product =>
      if Product.quantity product <? Item.quantity item then
        inr (rollback d,
             Response 400 (Failure (NotEnoughStock (Product.name product)
                             (Product.quantity product) (Item.quantity item))))
      else
        let d1 := insert_sale_item d saleId (Item.product_id item)
                    (Item.quantity item) (Item.price item)
                    (js_or (Item.total item)
                           (JNum (Item.quantity item * Item.price item))) in
        let newQty := Product.quantity product - Item.quantity item in
        inl (update_product d1 newQty
               (newStatus newQty (Product.min_stock product))
               (Item.product_id item))
  end.

(** [processNext], with [rest] the items from [index] on. *)
Fixpoint processNext (rest : list Item.t) (d : database)
    : database * response :=
  match rest with
  | [] =>
      let '(d', commitErr) := commit d in
      if commitErr then (d', Response 500 (Failure TransactionFailed))
      else (d', Response 201
                  (SaleCompleted invoiceNumber saleId itemsCount grand_total))
  | item :: rest' =>
      match processItem item d with
      | inr stop => stop
      | inl d' => processNext rest' d'
      end
  end.
End ProcessNext.

(** Step 1 of the handler: the header INSERT with the defaults of its
    parameter list. *)
Definition insert_header (invoiceNumber : string) (userId : Z) (body : Body.t)
    (d : database) : database :=
  insert_sale d invoiceNumber userId
    (js_or (Body.customer_name body) (JStr "Walk-in Customer"))
    (js_or (Body.subtotal body) (JNum 0))
    (js_or (Body.tax body) (JNum 0))
    (js_or (Body.discount body) (JNum 0))
    (Body.grand_total body)
    (js_or (Body.payment_method body) (JStr "cash")).

(** The handler of POST /api/sales.  [invoiceNumber] is the generated
    invoice number and [userId] the [req.userId] set by [verifyToken]. *)
Definition createSale (invoiceNumber : string) (userId : Z) (body : Body.t)
    (d : database) : database * response :=
  let items := Body.items body in
  let grand_total := Body.grand_total body in
  if negb (items_truthy items) || negb (is_array items)
     || (length (items_list items) =? 0)%nat then
    (d, Response 400 (Failure NoItemsProvided))
  else if negb (truthy grand_total) then
    (d, Response 400 (Failure GrandTotalRequired))
  else
    let d0 := begin_transaction d in
    let d1 := insert_header invoiceNumber userId body d0 in
    match select_last_insert_rowid d1 with
    | None => (rollback d1, Response 500 (Failure FailedToCreateSaleRecord))
    | Some saleId =>
        processNext invoiceNumber saleId (length (items_list items))
          grand_total (items_list items) d1
    end.

(** ** DELETE /api/sales/:id *)

(** The handler of DELETE /api/sales/:id (the sale voider). *)
Definition voidSale (sid : Z) (d : database) : database * response :=
  let items := select_sale_items d sid in
  let d0 := begin_transaction d in
  let d1 := foldl (λ acc item, restore_stock acc (SaleItem.quantity item)
                                 (SaleItem.product_id item)) d0 items in
  let d2 := delete_sale_items d1 sid in
  let '(d3, changes) := delete_sale d2 sid in
  if (changes =? 0)%nat then
    (rollback d3, Response 404 (Failure SaleNotFound))
  else
    let '(d4, _) := commit d3 in
    (d4, Response 200 SaleVoided).

(** ** Auxiliary notions used in the statements *)

(** The item loop of [processNext] without its final COMMIT: [inl] with
    the database reached when every item passed, [inr] with the handler's
    result when some item stopped the loop. *)
Fixpoint run_items (saleId : Z) (items : list Item.t) (d : database)
    : database + database * response :=
  match items with
  | [] => inl d
  | item :: rest =>
      match processItem saleId item d with
      | inr stop => inr stop
      | inl d' => run_items saleId rest d'
      end
  end.

(** The responses of steps 3a and 3b: product not found, not enough stock. *)
Definition is_item_failure (r : response) : bool :=
  match r with
  | Response 400 (Failure (ProductNotFound _)) => true
  | Response 400 (Failure (NotEnoughStock _ _ _)) => true
  | _ => false
  end.

(** The responses of the validation block at the top of the handler. *)
Definition is_validation_error (r : response) : bool :=
  match r with
  | Response 400 (Failure NoItemsProvided) => true
  | Response 400 (Failure GrandTotalRequired) => true
  | _ => false
  end.

(** The condition of the first validation test:
    [!items || !Array.isArray(items) || items.length === 0]. *)
Definition items_rejected (v : items_val) : bool :=
  negb (items_truthy v) || negb (is_array v)
  || (length (items_list v) =? 0)%nat.

(** The [sale_items] row written for [item], up to its rowid. *)
Definition row_of_item (saleId : Z) (item : Item.t) (row : SaleItem.t) : Prop :=
  SaleItem.sale_id row = saleId
  ∧ SaleItem.product_id row = Item.product_id item
  ∧ SaleItem.quantity row = Item.quantity item
  ∧ SaleItem.price row = Item.price item
  ∧ SaleItem.total row
    = (if truthy (Item.total item) then Item.total item
       else JNum (Item.quantity item * Item.price item)).

(** Total quantity that the items of a list request of product [pid]. *)
Definition requested (pid : Z) (items : list Item.t) : Z :=
  foldr (λ item acc, if decide (Item.product_id item = pid)
                     then Item.quantity item + acc else acc) 0 items.

(** Total quantity that the rows of a list record for product [pid]. *)
Definition recorded (pid : Z) (rows : list SaleItem.t) : Z :=
  foldr (λ row acc, if decide (SaleItem.product_id row = pid)
                    then SaleItem.quantity row + acc else acc) 0 rows.

(** The stored quantity of product [pid], if the product exists. *)
Definition stock (d : database) (pid : Z) : option Z :=
  Product.quantity <$> products (cur d) !! pid.

(** Referential integrity of [sale_items.sale_id], which the foreign key
    maintains: every item row belongs to an existing sale. *)
Definition items_reference_sales (t : tables) : Prop :=
  ∀ row, row ∈ sale_items t → SaleItem.sale_id row ∈ Sale.id <$> sales t.

(** A grand total that is a positive number. *)
Definition js_positive (v : jsval) : Prop :=
  match v with
  | JNum n => 0 < n
  | _ => False
  end.

(** The item total in the words of the specification: the total the
    caller provided, or quantity x price if none was provided. *)
Definition spec_total (item : Item.t) : jsval :=
  match Item.total item with
  | JUndefined => JNum (Item.quantity item * Item.price item)
  | provided => provided
  end.

(** ** A small shop, for the concrete runs below *)

Module Shop.
(** Product A of the specification's scenario: quantity 5, min_stock 2. *)
Definition productA : Product.t := Product.mk 1 "A" 5 2 in_stock.
Definition productB : Product.t := Product.mk 2 "B" 1 5 low_stock.

(** A database with one user (id 7), two products and no sale. *)
Definition empty : database :=
  mkDb (mkTables {[7]} {[1 := productA; 2 := productB]} [] 0 [] 0) None 0.

(** An item of [n] units of product A at price 10, without [total]. *)
Definition unitsA (n : Z) : Item.t := Item.mk 1 n 10 JUndefined.
Definition unitsB (n : Z) : Item.t := Item.mk 2 n 4 JUndefined.

(** A request body with the given items and grand total, every other
    field absent. *)
Definition order (items : list Item.t) (grand_total : jsval) : Body.t :=
  Body.mk JUndefined (ItemsArray items) JUndefined JUndefined JUndefined
    grand_total JUndefined.

(** The same body paid with an unknown payment method. *)
Definition order_paid_by (method : string) (items : list Item.t)
    (grand_total : jsval) : Body.t :=
  Body.mk JUndefined (ItemsArray items) JUndefined JUndefined JUndefined
    grand_total (JStr method).

(** An item of 3 units of A at price 10 whose [total] is given as 0. *)
Definition free_unitsA : Item.t := Item.mk 1 3 10 (JNum 0).

(** The shop after the sale of 2 units of A under invoice INV-1. *)
Definition after_first_sale : database :=
  (createSale "INV-1" 7 (order [unitsA 2] (JNum 20)) empty).1.

(** The shop after the sale of 5 units of A under invoice INV-1. *)
Definition sold_out : database :=
  (createSale "INV-1" 7 (order [unitsA 5] (JNum 50)) empty).1.
End Shop.

(** ** The authentication middleware *)

(** [s.split(sep)] for a separator of one character. *)
Fixpoint split (sep : Ascii.ascii) (s : string) : list string :=
  match s with
  | EmptyString => [EmptyString]
  | String c rest =>
      if Ascii.eqb c sep then EmptyString :: split sep rest
      else match split sep rest with
           | piece :: pieces => String c piece :: pieces
           | [] => [String c EmptyString]
           end
  end.

Module Claims.
(** The payload of a token, as [jwt.sign] of the login route builds it. *)
Record t := mk {
  id : Z;
  role : string;
  email : string
}.
End Claims.

(** What the middleware attaches to the request: [req.userId],
    [req.userRole], [req.userEmail] ([None] when not set). *)
Record identity := mkIdentity {
  userId : Z;
  userRole : string;
  userEmail : option string
}.

(** The [error] strings of the middleware. *)
Inductive denial :=
| NoTokenProvided          (* 'No token provided. Please login.' *)
| InvalidToken             (* 'Invalid or expired token. Please login again.' *)
| AdminRequired.           (* 'Admin access required. ...' *)

(** [res.status(code).json({ success: false, error })] of a middleware. *)
Inductive denied := Denied (code : Z) (why : denial).

(** The separator of [authHeader.split(' ')]. *)
Definition space : Ascii.ascii := Ascii.ascii_of_nat 32.

(** [authHeader && authHeader.split(' ')[1]]: [None] is undefined. *)
Definition header_token (authHeader : option string) : option string :=
  match authHeader with
  | None => None
  | Some h => if String.eqb h "" then Some h else split space h !! 1%nat
  end.

(** [!token]. *)
Definition no_token (token : option string) : bool :=
  match token with
  | None => true
  | Some t => String.eqb t ""
  end.

Section Middleware.
(** [jwt.verify(token, JWT_SECRET, ...)]: the decoded payload, [None] when
    the callback gets an error. *)
Variable jwt_verify : string → option Claims.t.

(** [verifyToken]: [inl] when it responds itself, [inr] with what it
    attaches to the request when it calls [next()]. *)
Definition verifyToken (authHeader : option string) : denied + identity :=
  let token := header_token authHeader in
  if no_token token then inl (Denied 403 NoTokenProvided)
  else match jwt_verify (default "" token) with
       | None => inl (Denied 401 InvalidToken)
       | Some decoded =>
           inr (mkIdentity (Claims.id decoded) (Claims.role decoded)
                  (Some (Claims.email decoded)))
       end.

(** [optionalAuth]: always calls [next()]; the identity is what it has
    attached to the request, if anything. *)
Definition optionalAuth (authHeader : option string) : option identity :=
  let token := header_token authHeader in
  if no_token token then None
  else match jwt_verify (default "" token) with
       | Some decoded =>
           Some (mkIdentity (Claims.id decoded) (Claims.role decoded) None)
       | None => None
       end.
End Middleware.

(** [isAdmin], after [verifyToken]: [None] when it calls [next()]. *)
Definition isAdmin (who : identity) : option denied :=
  if negb (String.eqb (userRole who) "admin")
  then Some (Denied 403 AdminRequired)
  else None.

(** ** GET /api/sales/:id *)

(** The [error] strings of the single-sale handler. *)
Inductive lookup_error :=
| NotFound                 (* 'Not found' *)
| SaleMissing              (* 'Sale not found.' *)
| PermissionDenied.        (* 'Permission denied.' *)

(** A row of the item query: the columns of [sale_items] and the
    [product_name] of the LEFT JOIN ([None] when no product matches). *)
Definition sale_line : Type := SaleItem.t * option string.

(** The answers of the handler; of a found sale the columns of [sales]
    and its lines are kept. *)
Inductive sale_response :=
| SaleError (code : Z) (error : lookup_error)
| SaleFound (sale : Sale.t) (items : list sale_line).

Section SingleSale.
(** The integer SQLite compares the INTEGER column [id] with when the
    text of [req.params.id] is bound to [WHERE id = ?], if the text reads
    as an integer. *)
Variable rowid_of_text : string → option Z.

(** [SELECT s.*, ... FROM sales s LEFT JOIN users u ... WHERE s.id = ?]. *)
Definition select_sale (d : database) (id : string) : option Sale.t :=
  match rowid_of_text id with
  | Some n => head (filter (λ s, Sale.id s = n) (sales (cur d)))
  | None => None
  end.

(** [SELECT si.*, p.name as product_name, ... FROM sale_items si
    LEFT JOIN products p ON si.product_id = p.id WHERE si.sale_id = ?]. *)
Definition select_sale_lines (d : database) (id : string) : list sale_line :=
  match rowid_of_text id with
  | Some n =>
      (λ r, (r, Product.name <$> products (cur d) !! SaleItem.product_id r))
      <$> filter (λ r, SaleItem.sale_id r = n) (sale_items (cur d))
  | None => []
  end.

(** The handler of GET /api/sales/:id, for the identity attached by
    [verifyToken]. *)
Definition getSale (id : string) (who : identity) (d : database)
    : sale_response :=
  if String.eqb id "reports" then SaleError 404 NotFound
  else
    match select_sale d id with
    | None => SaleError 404 SaleMissing
    | Some sale =>
        if negb (String.eqb (userRole who) "admin")
           && negb (Sale.user_id sale =? userId who)
        then SaleError 403 PermissionDenied
        else SaleFound sale (select_sale_lines d id)
    end.
End SingleSale.

(** ** The routes of the sales router, with their middleware *)

Section Routes.
Variable jwt_verify : string → option Claims.t.

(** [router.post('/', verifyToken, handler)]. *)
Definition post_sales (authHeader : option string) (invoiceNumber : string)
    (body : Body.t) (d : database) : database * (denied + response) :=
  match verifyToken jwt_verify authHeader with
  | inl deny => (d, inl deny)
  | inr who =>
      let '(d', r) := createSale invoiceNumber (userId who) body d in
      (d', inr r)
  end.

(** [router.delete('/:id', verifyToken, isAdmin, handler)]. *)
Definition delete_sales (authHeader : option string) (sid : Z) (d : database)
    : database * (denied + response) :=
  match verifyToken jwt_verify authHeader with
  | inl deny => (d, inl deny)
  | inr who =>
      match isAdmin who with
      | Some deny => (d, inl deny)
      | None => let '(d', r) := voidSale sid d in (d', inr r)
      end
  end.

(** [router.get('/:id', verifyToken, handler)]. *)
Definition get_sales (rowid_of_text : string → option Z)
    (authHeader : option string) (id : string) (d : database)
    : denied + sale_response :=
  match verifyToken jwt_verify authHeader with
  | inl deny => inl deny
  | inr who => inr (getSale rowid_of_text id who d)
  end.
End Routes.

(** ** Sequences of requests *)

(** A request to one of the two writing handlers. *)
Inductive request :=
| CreateSale (invoiceNumber : string) (userId : Z) (body : Body.t)
| VoidSale (sid : Z).

Definition handle (rq : request) (d : database) : database * response :=
  match rq with
  | CreateSale invoiceNumber userId body => createSale invoiceNumber userId body d
  | VoidSale sid => voidSale sid d
  end.

(** The requests of a list handled one after the other; the responses in
    the order of the requests. *)
Fixpoint serve (rqs : list request) (d : database)
    : database * list response :=
  match rqs with
  | [] => (d, [])
  | rq :: rest =>
      let '(d1, r) := handle rq d in
      let '(d2, rs) := serve rest d1 in
      (d2, r :: rs)
  end.

(** The store between two requests: no transaction open, every item row
    attached to an existing sale, no two sales with the same id, and no
    sale id above the sequence counter of [sales]. *)
Definition store_ok (d : database) : Prop :=
  txn d = None
  ∧ items_reference_sales (cur d)
  ∧ NoDup (Sale.id <$> sales (cur d))
  ∧ ∀ s, s ∈ sales (cur d) → Sale.id s ≤ sales_seq (cur d).

(** Every product row carries the status the handlers compute from its
    quantity and threshold. *)
Definition statuses_computed (t : tables) : Prop :=
  ∀ pid p, products t !! pid = Some p →
    Product.status p = newStatus (Product.quantity p) (Product.min_stock p).

(** Product [pid] is named by an item of the list. *)
Definition names_product (pid : Z) (items : list Item.t) : Prop :=
  pid ∈ Item.product_id <$> items.

(** The columns of a product row that no sale handler should change. *)
Definition fixed_columns (p : Product.t) : Z * string * Z :=
  (Product.id p, Product.name p, Product.min_stock p).

(** The character [c] does not occur in [s]. *)
Fixpoint free_of (c : Ascii.ascii) (s : string) : bool :=
  match s with
  | EmptyString => true
  | String c' rest => negb (Ascii.eqb c' c) && free_of c rest
  end.

(** Two databases that the item loop cannot tell apart: they agree on
    everything but the columns of [sales] other than the id, and the
    sequence counter of [sales]. *)
Definition same_for_items (d e : database) : Prop :=
  users (cur d) = users (cur e)
  ∧ products (cur d) = products (cur e)
  ∧ Sale.id <$> sales (cur d) = Sale.id <$> sales (cur e)
  ∧ sale_items (cur d) = sale_items (cur e)
  ∧ sale_items_seq (cur d) = sale_items_seq (cur e)
  ∧ txn d = txn e
  ∧ last_insert_rowid d = last_insert_rowid e.

(** ** Callers and tokens for the concrete runs *)

Module Desk.
(** Tokens: "t-admin" is user 1 (admin), "t-ann" is user 7 (user); any
    other text is rejected. *)
Definition jwt_verify (token : string) : option Claims.t :=
  if String.eqb token "t-admin" then Some (Claims.mk 1 "admin" "admin@company.com")
  else if String.eqb token "t-ann" then Some (Claims.mk 7 "user" "ann@company.com")
  else None.

(** The route parameters used below. *)
Definition rowid_of_text (id : string) : option Z :=
  if String.eqb id "1" then Some 1
  else if String.eqb id "2" then Some 2
  else None.

Definition ann : identity := mkIdentity 7 "user" (Some "ann@company.com").
Definition bob : identity := mkIdentity 8 "user" (Some "bob@company.com").
Definition admin : identity := mkIdentity 1 "admin" (Some "admin@company.com").

(** The shop of [Shop.empty] with users 1, 7 and 8. *)
Definition open_shop : database :=
  mkDb (mkTables {[1; 7; 8]} {[1 := Shop.productA; 2 := Shop.productB]}
          [] 0 [] 0) None 0.
End Desk.

(** ** Statements run without a callback *)

(** How a request ends.  The driver reports the error of a statement
    that was run without a callback as an 'error' event on the statement;
    the program registers no listener for it (the server installs
    handlers for SIGTERM and SIGINT only), so the event is thrown and the
    process stops.  [Stopped d sent] is that end: [d] is the connection
    at the statement that failed and [sent] the response, if the handler
    had already sent one. *)
Inductive outcome :=
| Responded (d : database) (r : response)
| Stopped (d : database) (sent : option response).

(** What the database file holds once the connection is gone: the
    changes of a transaction that was still open are not part of it. *)
Definition committed (d : database) : tables :=
  match txn d with
  | Some snap => snap
  | None => cur d
  end.

(** [db.run('ROLLBACK'); return res.status(...).json(...)]: the response
    is sent when the ROLLBACK is queued; the ROLLBACK fails outside a
    transaction. *)
Definition rollback_and_respond (d : database) (r : response) : outcome :=
  match txn d with
  | Some _ => Responded (rollback d) r
  | None => Stopped d (Some r)
  end.

Section ProcessNextServed.
Variables (invoiceNumber : string) (saleId : Z) (itemsCount : nat)
          (grand_total : jsval).

(** [processNext] with the driver's rule for its statements without
    callback: the two ROLLBACKs and the INSERT of step 3b (the UPDATE of
    step 3c violates no constraint; COMMIT has a callback). *)
Fixpoint processNext_served (rest : list Item.t) (d : database) : outcome :=
  match rest with
  | [] =>
      let '(d', commitErr) := commit d in
      if commitErr then Responded d' (Response 500 (Failure TransactionFailed))
      else Responded d'
             (Response 201
                (SaleCompleted invoiceNumber saleId itemsCount grand_total))
  | item :: rest' =>
      match select_product d (Item.product_id item) with
      | None =>
          rollback_and_respond d
            (Response 400 (Failure (ProductNotFound (Item.product_id item))))
      | Some product =>
          if Product.quantity product <? Item.quantity item then
            rollback_and_respond d
              (Response 400 (Failure (NotEnoughStock (Product.name product)
                              (Product.quantity product) (Item.quantity item))))
          else if sale_items_insert_ok (cur d) saleId (Item.product_id item)
          then
            let d1 := insert_sale_item d saleId (Item.product_id item)
                        (Item.quantity item) (Item.price item)
                        (js_or (Item.total item)
                               (JNum (Item.quantity item * Item.price item))) in
            let newQty := Product.quantity product - Item.quantity item in
            processNext_served rest'
              (update_product d1 newQty
                 (newStatus newQty (Product.min_stock product))
                 (Item.product_id item))
          else Stopped d None
      end
  end.
End ProcessNextServed.

(** The handler of POST /api/sales with the driver's rule for its
    statements without callback: BEGIN TRANSACTION (line 29), the header
    INSERT (lines 32 to 46), the ROLLBACK of line 51 and those of
    [processNext]. *)
Definition createSale_served (invoiceNumber : string) (userId : Z)
    (body : Body.t) (d : database) : outcome :=
  let items := Body.items body in
  let grand_total := Body.grand_total body in
  if negb (items_truthy items) || negb (is_array items)
     || (length (items_list items) =? 0)%nat then
    Responded d (Response 400 (Failure NoItemsProvided))
  else if negb (truthy grand_total) then
    Responded d (Response 400 (Failure GrandTotalRequired))
  else
    match txn d with
    | Some _ => Stopped d None
    | None =>
        let d0 := begin_transaction d in
        if sales_insert_ok (cur d0) invoiceNumber userId
             (js_or (Body.payment_method body) (JStr "cash"))
        then
          let d1 := insert_header invoiceNumber userId body d0 in
          match select_last_insert_rowid d1 with
          | None =>
              rollback_and_respond d1
                (Response 500 (Failure FailedToCreateSaleRecord))
          | Some saleId =>
              processNext_served invoiceNumber saleId
                (length (items_list items)) grand_total (items_list items) d1
          end
        else Stopped d0 None
    end.

(** ** Basic facts about the statements *)

Lemma txn_insert_sale d inv u c s t ds g m :
  txn (insert_sale d inv u c s t ds g m) = txn d.
Proof. unfold insert_sale. by case_match. Qed.

Lemma txn_insert_sale_item d s p q pr tot :
  txn (insert_sale_item d s p q pr tot) = txn d.
Proof. unfold insert_sale_item. by case_match. Qed.

Lemma txn_update_product d q st pid : txn (update_product d q st pid) = txn d.
Proof. done. Qed.

Lemma txn_restore_stock d q pid : txn (restore_stock d q pid) = txn d.
Proof. done. Qed.

Lemma products_insert_sale_item d s p q pr tot :
  products (cur (insert_sale_item d s p q pr tot)) = products (cur d).
Proof. unfold insert_sale_item. by case_match. Qed.

Lemma sales_insert_sale_item d s p q pr tot :
  sales (cur (insert_sale_item d s p q pr tot)) = sales (cur d)
  ∧ sales_seq (cur (insert_sale_item d s p q pr tot)) = sales_seq (cur d)
  ∧ users (cur (insert_sale_item d s p q pr tot)) = users (cur d).
Proof. unfold insert_sale_item. by case_match. Qed.

Lemma rollback_open d snap :
  txn d = Some snap → cur (rollback d) = snap ∧ txn (rollback d) = None.
Proof. unfold rollback. by intros ->. Qed.

Lemma commit_open d snap :
  txn d = Some snap →
  commit d = (mkDb (cur d) None (last_insert_rowid d), false).
Proof. unfold commit. by intros ->. Qed.

(** What a passing item step does to the database. *)
Lemma processItem_inl saleId item d d' :
  processItem saleId item d = inl d' →
  ∃ product,
    select_product d (Item.product_id item) = Some product
    ∧ Item.quantity item ≤ Product.quantity product
    ∧ d' = update_product
             (insert_sale_item d saleId (Item.product_id item)
                (Item.quantity item) (Item.price item)
                (js_or (Item.total item)
                   (JNum (Item.quantity item * Item.price item))))
             (Product.quantity product - Item.quantity item)
             (newStatus (Product.quantity product - Item.quantity item)
                (Product.min_stock product))
             (Item.product_id item).
Proof.
  unfold processItem. intros H.
  destruct (select_product d (Item.product_id item)) as [product|]; [|done].
  destruct (Z.ltb_spec (Product.quantity product) (Item.quantity item));
    [done|].
  exists product. split_and!; [done|lia|congruence].
Qed.

(** A stopping item step has rolled back and answers with an item failure. *)
Lemma processItem_inr saleId item d stop :
  processItem saleId item d = inr stop →
  stop.1 = rollback d ∧ is_item_failure stop.2 = true.
Proof.
  unfold processItem. intros H.
  destruct (select_product d (Item.product_id item)) as [product|].
  - destruct (Product.quantity product <? Item.quantity item);
      by simplify_eq.
  - by simplify_eq.
Qed.

Lemma processItem_txn saleId item d d' :
  processItem saleId item d = inl d' → txn d' = txn d.
Proof.
  intros (product & _ & _ & ->)%processItem_inl.
  by rewrite txn_update_product, txn_insert_sale_item.
Qed.

Lemma processNext_run_items inv saleId n gt items d :
  processNext inv saleId n gt items d
  = match run_items saleId items d with
    | inl d' => processNext inv saleId n gt [] d'
    | inr stop => stop
    end.
Proof.
  revert d. induction items as [|item rest IH]; intros d; simpl; [done|].
  destruct (processItem saleId item d); [apply IH|done].
Qed.

Lemma run_items_app saleId pre rest d :
  run_items saleId (pre ++ rest) d
  = match run_items saleId pre d with
    | inl d' => run_items saleId rest d'
    | inr stop => inr stop
    end.
Proof.
  revert d. induction pre as [|item pre IH]; intros d; simpl; [done|].
  destruct (processItem saleId item d); [apply IH|done].
Qed.

Lemma run_items_txn saleId items d d' :
  run_items saleId items d = inl d' → txn d' = txn d.
Proof.
  revert d. induction items as [|item rest IH]; intros d; simpl.
  - by intros [= ->].
  - destruct (processItem saleId item d) as [d1|] eqn:E; [|done].
    intros H. rewrite (IH _ H). by eapply processItem_txn.
Qed.

(** A stopped loop has restored the snapshot of the open transaction. *)
Lemma run_items_inr saleId items d snap stop :
  txn d = Some snap →
  run_items saleId items d = inr stop →
  cur stop.1 = snap ∧ txn stop.1 = None ∧ is_item_failure stop.2 = true.
Proof.
  revert d. induction items as [|item rest IH]; intros d Ht; simpl; [done|].
  destruct (processItem saleId item d) as [d1|s] eqn:E.
  - apply IH. by rewrite (processItem_txn _ _ _ _ E).
  - intros [= <-]. apply processItem_inr in E as [-> ?].
    by destruct (rollback_open _ _ Ht).
Qed.

(** The product row left by a passing item step. *)
Lemma processItem_product saleId item d d' product :
  select_product d (Item.product_id item) = Some product →
  processItem saleId item d = inl d' →
  select_product d' (Item.product_id item)
  = Some (Product.mk (Product.id product) (Product.name product)
            (Product.quantity product - Item.quantity item)
            (Product.min_stock product)
            (newStatus (Product.quantity product - Item.quantity item)
               (Product.min_stock product))).
Proof.
  intros Hp (product' & Hp' & _ & ->)%processItem_inl.
  assert (product' = product) as -> by congruence.
  unfold select_product in *. simpl.
  rewrite lookup_alter_eq, products_insert_sale_item. by rewrite Hp.
Qed.

(** A passing item step leaves the other products alone. *)
Lemma processItem_other saleId item d d' pid :
  Item.product_id item ≠ pid →
  processItem saleId item d = inl d' →
  select_product d' pid = select_product d pid.
Proof.
  intros Hne (product & _ & _ & ->)%processItem_inl.
  unfold select_product. simpl.
  by rewrite lookup_alter_ne, products_insert_sale_item.
Qed.

Lemma processItem_stock saleId item d d' pid :
  processItem saleId item d = inl d' →
  stock d' pid
  = (λ q, if decide (Item.product_id item = pid)
          then q - Item.quantity item else q) <$> stock d pid.
Proof.
  intros H. destruct (decide (Item.product_id item = pid)) as [<-|Hne].
  - pose proof H as (product & Hp & _)%processItem_inl.
    pose proof (processItem_product _ _ _ _ _ Hp H) as Hp'.
    unfold stock, select_product in *. by rewrite Hp', Hp.
  - pose proof (processItem_other _ _ _ _ _ Hne H) as Ho.
    unfold stock, select_product in *. rewrite Ho.
    by destruct (products (cur d) !! pid).
Qed.

(** The rows a passing item step appends to [sale_items]: one row when the
    sale id it was given is the id of a row of [sales], none otherwise. *)
Lemma processItem_rows saleId item d d' :
  processItem saleId item d = inl d' →
  users (cur d') = users (cur d)
  ∧ sales (cur d') = sales (cur d)
  ∧ sales_seq (cur d') = sales_seq (cur d)
  ∧ ∃ rows,
      sale_items (cur d') = sale_items (cur d) ++ rows
      ∧ if bool_decide (saleId ∈ Sale.id <$> sales (cur d))
        then ∃ row, rows = [row] ∧ row_of_item saleId item row
        else rows = [].
Proof.
  intros (product & Hp & _ & ->)%processItem_inl. simpl.
  unfold insert_sale_item, sale_items_insert_ok.
  unfold select_product in Hp. rewrite Hp.
  rewrite (bool_decide_eq_true_2 (is_Some (Some product))) by eauto.
  rewrite andb_true_r.
  destruct (bool_decide (saleId ∈ Sale.id <$> sales (cur d))); simpl.
  - split_and!; try done. eexists. split; [done|].
    eexists. split; [done|]. by unfold row_of_item, js_or.
  - split_and!; try done. exists []. by rewrite app_nil_r.
Qed.

Lemma requested_cons pid item items :
  requested pid (item :: items)
  = if decide (Item.product_id item = pid)
    then Item.quantity item + requested pid items
    else requested pid items.
Proof. done. Qed.

(** The whole loop: every product's stock is lowered by what the items
    request of it. *)
Lemma run_items_stock saleId items d d' pid :
  run_items saleId items d = inl d' →
  stock d' pid = (λ q, q - requested pid items) <$> stock d pid.
Proof.
  revert d. induction items as [|item rest IH]; intros d; cbn [run_items].
  - intros [= ->]. destruct (stock d' pid); simpl; f_equal; lia.
  - destruct (processItem saleId item d) as [d1|] eqn:E; [|done].
    intros H. rewrite (IH _ H), (processItem_stock _ _ _ _ pid E).
    rewrite requested_cons.
    destruct (stock d pid); simpl; [|done].
    case_decide; f_equal; lia.
Qed.

(** The whole loop: the rows appended to [sale_items]. *)
Lemma run_items_rows saleId items d d' :
  run_items saleId items d = inl d' →
  users (cur d') = users (cur d)
  ∧ sales (cur d') = sales (cur d)
  ∧ sales_seq (cur d') = sales_seq (cur d)
  ∧ ∃ rows,
      sale_items (cur d') = sale_items (cur d) ++ rows
      ∧ if bool_decide (saleId ∈ Sale.id <$> sales (cur d))
        then Forall2 (row_of_item saleId) items rows
        else rows = [].
Proof.
  revert d. induction items as [|item rest IH]; intros d; simpl.
  - intros [= ->]. split_and!; try done. exists []. rewrite app_nil_r.
    split; [done|]. by case_bool_decide.
  - destruct (processItem saleId item d) as [d1|] eqn:E; [|done].
    intros H. destruct (IH _ H) as (Hu & Hs & Hq & rows & Hr & Hrows).
    destruct (processItem_rows _ _ _ _ E)
      as (Hu1 & Hs1 & Hq1 & rows1 & Hr1 & Hrows1).
    split_and!; [congruence..|].
    exists (rows1 ++ rows). split.
    + by rewrite Hr, Hr1, app_assoc.
    + rewrite Hs1 in Hrows.
      destruct (bool_decide (saleId ∈ Sale.id <$> sales (cur d))).
      * destruct Hrows1 as (row & -> & Hrow). by constructor.
      * by subst.
Qed.

(** ** The three ways through [createSale] *)

Lemma createSale_rejected inv uid body d :
  items_rejected (Body.items body) = true →
  createSale inv uid body d = (d, Response 400 (Failure NoItemsProvided)).
Proof. unfold createSale, items_rejected. by intros ->. Qed.

Lemma createSale_no_total inv uid body d :
  items_rejected (Body.items body) = false →
  truthy (Body.grand_total body) = false →
  createSale inv uid body d = (d, Response 400 (Failure GrandTotalRequired)).
Proof. unfold createSale, items_rejected. by intros -> ->. Qed.

Lemma createSale_accepted inv uid body d :
  items_rejected (Body.items body) = false →
  truthy (Body.grand_total body) = true →
  createSale inv uid body d
  = let d1 := insert_header inv uid body (begin_transaction d) in
    processNext inv (last_insert_rowid d1)
      (length (items_list (Body.items body))) (Body.grand_total body)
      (items_list (Body.items body)) d1.
Proof. unfold createSale, items_rejected. by intros -> ->. Qed.

Lemma items_rejected_array l :
  l ≠ [] → items_rejected (ItemsArray l) = false.
Proof. by destruct l. Qed.

Lemma txn_insert_header inv uid body d :
  txn (insert_header inv uid body d) = txn d.
Proof. apply txn_insert_sale. Qed.

Lemma txn_begin d : txn d = None → txn (begin_transaction d) = Some (cur d).
Proof. unfold begin_transaction. by intros ->. Qed.

(** The header INSERT when a constraint of [sales] rejects it. *)
Lemma insert_header_failed inv uid body d :
  sales_insert_ok (cur d) inv uid
    (js_or (Body.payment_method body) (JStr "cash")) = false →
  insert_header inv uid body d = d.
Proof. unfold insert_header, insert_sale. by intros ->. Qed.

(** The header INSERT when it succeeds. *)
Lemma insert_header_done inv uid body d :
  sales_insert_ok (cur d) inv uid
    (js_or (Body.payment_method body) (JStr "cash")) = true →
  let rowid := next_rowid (sales_seq (cur d)) (Sale.id <$> sales (cur d)) in
  last_insert_rowid (insert_header inv uid body d) = rowid
  ∧ users (cur (insert_header inv uid body d)) = users (cur d)
  ∧ products (cur (insert_header inv uid body d)) = products (cur d)
  ∧ sale_items (cur (insert_header inv uid body d)) = sale_items (cur d)
  ∧ ∃ row,
      sales (cur (insert_header inv uid body d)) = sales (cur d) ++ [row]
      ∧ Sale.id row = rowid
      ∧ Sale.grand_total row = Body.grand_total body.
Proof.
  unfold insert_header, insert_sale. intros ->. simpl.
  split_and!; try done. by eexists.
Qed.

(** Every result of [createSale] on a database without open transaction:
    a validation error with nothing touched, an item failure with the
    tables as before, or the success response after a full loop. *)
Lemma createSale_cases inv uid body d d' r :
  txn d = None →
  createSale inv uid body d = (d', r) →
  (is_validation_error r = true ∧ d' = d)
  ∨ (is_item_failure r = true ∧ cur d' = cur d ∧ txn d' = None)
  ∨ (∃ dn,
       let d1 := insert_header inv uid body (begin_transaction d) in
       items_rejected (Body.items body) = false
       ∧ truthy (Body.grand_total body) = true
       ∧ run_items (last_insert_rowid d1) (items_list (Body.items body)) d1
         = inl dn
       ∧ d' = mkDb (cur dn) None (last_insert_rowid dn)
       ∧ r = Response 201
               (SaleCompleted inv (last_insert_rowid d1)
                  (length (items_list (Body.items body)))
                  (Body.grand_total body))).
Proof.
  intros Ht H.
  destruct (items_rejected (Body.items body)) eqn:Ei.
  { rewrite createSale_rejected in H by done. left. by simplify_eq. }
  destruct (truthy (Body.grand_total body)) eqn:Eg.
  2:{ rewrite createSale_no_total in H by done. left. by simplify_eq. }
  rewrite createSale_accepted in H by done. cbv zeta in H.
  rewrite processNext_run_items in H.
  set (d1 := insert_header inv uid body (begin_transaction d)) in *.
  assert (txn d1 = Some (cur d)) as Ht1.
  { unfold d1. by rewrite txn_insert_header, txn_begin. }
  destruct (run_items (last_insert_rowid d1) (items_list (Body.items body)) d1)
    as [dn|stop] eqn:E.
  - right. right. exists dn. simpl in H.
    rewrite (commit_open dn (cur d)) in H
      by (by rewrite (run_items_txn _ _ _ _ E)).
    by simplify_eq.
  - right. left. subst stop.
    destruct (run_items_inr _ _ _ _ _ Ht1 E) as (? & ? & ?). done.
Qed.

(** ** Atomicity of a failing sale *)

(** C2. On a database with no transaction open when the handler starts:
    if the items before position k pass and the step of item k stops (its
    product is absent or its stock is insufficient), [createSale] returns
    what that step returns, which is the database after ROLLBACK together
    with the error; every table is then as it was before the call (no
    header row, no [sale_items] row, no stock change) and no transaction
    is left open.  Said by the response alone: whenever [createSale]
    answers with a product-not-found or not-enough-stock error, the
    tables are those of before the call. *)
Theorem createSale_item_failure_rolls_back inv uid body d :
  txn d = None →
  let d1 := insert_header inv uid body (begin_transaction d) in
  let saleId := last_insert_rowid d1 in
  (∀ pre item post dk stop,
     Body.items body = ItemsArray (pre ++ item :: post) →
     truthy (Body.grand_total body) = true →
     run_items saleId pre d1 = inl dk →
     processItem saleId item dk = inr stop →
     createSale inv uid body d = stop
     ∧ stop.1 = rollback dk
     ∧ is_item_failure stop.2 = true
     ∧ cur stop.1 = cur d ∧ txn stop.1 = None)
  ∧ (∀ d' r,
       createSale inv uid body d = (d', r) →
       is_item_failure r = true →
       cur d' = cur d ∧ txn d' = None).
Proof.
  intros Ht d1 saleId. split.
  - intros pre item post dk stop Hitems Hg Epre Estop.
    assert (txn dk = Some (cur d)) as Htk.
    { rewrite (run_items_txn _ _ _ _ Epre). unfold d1.
      by rewrite txn_insert_header, txn_begin. }
    pose proof Estop as [Hdb Hfail]%processItem_inr.
    destruct (rollback_open _ _ Htk) as [Hcur Htxn].
    split_and!; [|done|done|by rewrite Hdb..].
    rewrite createSale_accepted; [|rewrite Hitems..|done].
    + cbv zeta. rewrite Hitems. simpl items_list. fold d1 saleId.
      rewrite processNext_run_items, run_items_app, Epre.
      cbn [run_items]. by rewrite Estop.
    + apply items_rejected_array. by destruct pre.
  - intros d' r H Hr.
    destruct (createSale_cases _ _ _ _ _ _ Ht H)
      as [[Hv ->]|[(_ & ? & ?)|(dn & _ & _ & _ & _ & ->)]]; [|done|done].
    destruct r as [code [[]| |]]; simpl in *;
      repeat (try done; case_match).
Qed.

Lemma createSale_item_failure_rolls_back_witness :
  let body := Shop.order [Shop.unitsA 2; Shop.unitsB 1; Shop.unitsA 4;
                          Shop.unitsB 1] (JNum 68) in
  let run := createSale "INV-9" 7 body Shop.empty in
  run.2 = Response 400 (Failure (NotEnoughStock "A" 3 4))
  ∧ cur run.1 = cur Shop.empty ∧ txn run.1 = None.
Proof.
  destruct (createSale_item_failure_rolls_back "INV-9" 7
              (Shop.order [Shop.unitsA 2; Shop.unitsB 1; Shop.unitsA 4;
                           Shop.unitsB 1] (JNum 68)) Shop.empty eq_refl)
    as [Hat _].
  destruct (Hat [Shop.unitsA 2; Shop.unitsB 1] (Shop.unitsA 4) [Shop.unitsB 1]
              _ _ eq_refl eq_refl ltac:(by vm_compute) ltac:(by vm_compute))
    as (Hrun & _ & _ & Hcur & Htxn).
  cbv zeta. rewrite Hrun. split_and!; [by vm_compute|exact Hcur|exact Htxn].
Defined.

(** ** Validation *)

Lemma items_rejected_false v :
  items_rejected v = false ↔ ∃ item rest, v = ItemsArray (item :: rest).
Proof.
  split.
  - destruct v as [s| |[|item rest]]; unfold items_rejected; simpl;
      try done; [by destruct (truthy s)|eauto].
  - by intros (item & rest & ->).
Qed.

Lemma run_items_inr_failure sid items d stop :
  run_items sid items d = inr stop → is_item_failure stop.2 = true.
Proof.
  revert d. induction items as [|item rest IH]; intros d; simpl; [done|].
  destruct (processItem sid item d) as [d1|s] eqn:E1; [apply IH|].
  intros [= <-]. by apply processItem_inr in E1 as [_ Hf].
Qed.

(** The item loop never answers with a validation error. *)
Lemma processNext_not_validation inv sid n gt items d :
  is_validation_error (processNext inv sid n gt items d).2 = false.
Proof.
  rewrite processNext_run_items.
  destruct (run_items sid items d) as [dn|stop] eqn:E.
  - simpl. unfold commit. by destruct (txn dn).
  - apply run_items_inr_failure in E.
    destruct stop.2 as [code [[]| |]]; simpl in *;
      repeat (try done; case_match).
Qed.

(** The header row and the rows of [sales] after a successful sale. *)
Lemma createSale_success_sales inv uid body d d' sid n gt :
  createSale inv uid body d = (d', Response 201 (SaleCompleted inv sid n gt)) →
  truthy (Body.grand_total body) = true
  ∧ gt = Body.grand_total body
  ∧ sales (cur d')
    = sales (cur (insert_header inv uid body (begin_transaction d))).
Proof.
  intros H.
  destruct (items_rejected (Body.items body)) eqn:Ei.
  { by rewrite createSale_rejected in H. }
  destruct (truthy (Body.grand_total body)) eqn:Eg.
  2:{ by rewrite createSale_no_total in H. }
  rewrite createSale_accepted in H by done. cbv zeta in H.
  rewrite processNext_run_items in H.
  destruct (run_items _ _ _) as [dn|stop] eqn:E.
  - simpl in H. unfold commit in H.
    destruct (run_items_rows _ _ _ _ E) as (_ & Hs & _).
    destruct (txn dn); simplify_eq; done.
  - subst stop. by apply run_items_inr_failure in E.
Qed.

Lemma sales_begin_transaction d :
  sales (cur (begin_transaction d)) = sales (cur d).
Proof. unfold begin_transaction. by destruct (txn d). Qed.

(** The rows of [sales] after the header INSERT: the old rows, and the new
    header when the INSERT succeeded. *)
Lemma sales_insert_header inv uid body d s :
  s ∈ sales (cur (insert_header inv uid body d)) →
  s ∈ sales (cur d) ∨ Sale.grand_total s = Body.grand_total body.
Proof.
  unfold insert_header, insert_sale. case_match; simpl; [|by left].
  rewrite elem_of_app, list_elem_of_singleton. intros [?| ->]; [by left|].
  by right.
Qed.

(** C7 (amended). [createSale] answers with a validation error exactly
    when [items] is absent, not an array or empty, or [grand_total] is not
    truthy; in that case the database is returned untouched (no statement
    was issued).  A sale that completes was submitted with a truthy
    [grand_total], which the response echoes: a number other than 0,
    which may be negative, or another truthy value such as a non-empty
    text.  When it is a number, that number is the grand total of the
    header that the sale adds; nothing is said of what the REAL column
    stores for a text, and the total of a committed sale is not
    guaranteed to be positive. *)
Theorem createSale_validation inv uid body d :
  (is_validation_error (createSale inv uid body d).2 = true
   ↔ items_rejected (Body.items body) = true
     ∨ truthy (Body.grand_total body) = false)
  ∧ (items_rejected (Body.items body) = false
     ↔ ∃ item rest, Body.items body = ItemsArray (item :: rest))
  ∧ (is_validation_error (createSale inv uid body d).2 = true →
     (createSale inv uid body d).1 = d)
  ∧ (∀ d' sid n gt,
       createSale inv uid body d
       = (d', Response 201 (SaleCompleted inv sid n gt)) →
       truthy (Body.grand_total body) = true
       ∧ gt = Body.grand_total body
       ∧ ∀ total,
           Body.grand_total body = JNum total →
           total ≠ 0
           ∧ ∀ s, s ∈ sales (cur d') → s ∉ sales (cur d) →
                  Sale.grand_total s = JNum total).
Proof.
  split_and!.
  - destruct (items_rejected (Body.items body)) eqn:Ei.
    { rewrite createSale_rejected by done. simpl. naive_solver. }
    destruct (truthy (Body.grand_total body)) eqn:Eg.
    2:{ rewrite createSale_no_total by done. simpl. naive_solver. }
    rewrite createSale_accepted by done. cbv zeta.
    rewrite processNext_not_validation. split; [done|by intros [?|?]].
  - apply items_rejected_false.
  - destruct (items_rejected (Body.items body)) eqn:Ei.
    { by rewrite createSale_rejected. }
    destruct (truthy (Body.grand_total body)) eqn:Eg.
    2:{ by rewrite createSale_no_total. }
    rewrite createSale_accepted by done. cbv zeta.
    by rewrite processNext_not_validation.
  - intros d' sid n gt H.
    destruct (createSale_success_sales _ _ _ _ _ _ _ _ H) as (Hg & -> & Hs).
    split_and!; try done.
    intros total Htotal. split.
    + rewrite Htotal in Hg. simpl in Hg. intros ->. done.
    + intros s Hin Hnew. rewrite Hs in Hin.
      apply sales_insert_header in Hin as [Hin|Hin]; [|congruence].
      rewrite sales_begin_transaction in Hin. done.
Qed.

(** A text is truthy whenever it is not empty: the body below, whose
    [grand_total] is the text "0", passes the validation and the sale is
    completed. *)
Example text_zero_total_is_accepted :
  (createSale "INV-1" 7 (Shop.order [Shop.unitsA 1] (JStr "0")) Shop.empty).2
  = Response 201 (SaleCompleted "INV-1" 1 1 (JStr "0")).
Proof. by vm_compute. Qed.

(** C7, as stated, fails: a negative [grand_total] is truthy, so the sale
    below is committed with a header whose grand total is -10. *)
Lemma committed_sale_with_negative_total :
  ¬ (∀ inv uid body d d' sid n gt,
       txn d = None →
       createSale inv uid body d
       = (d', Response 201 (SaleCompleted inv sid n gt)) →
       ∀ s, s ∈ sales (cur d') → s ∉ sales (cur d) →
            js_positive (Sale.grand_total s)).
Proof.
  intros H.
  pose (body := Shop.order [Shop.unitsA 1] (JNum (-10))).
  pose (run := createSale "INV-1" 7 body Shop.empty).
  assert (run = (run.1, Response 201 (SaleCompleted "INV-1" 1 1 (JNum (-10)))))
    as Hrun by (by vm_compute).
  assert (js_positive (JNum (-10))) as Hpos; [|simpl in Hpos; lia].
  apply (H "INV-1" 7 body Shop.empty run.1 1 1%nat (JNum (-10)) eq_refl Hrun
           (Sale.mk 1 "INV-1" 7 (JStr "Walk-in Customer") (JNum 0) (JNum 0)
              (JNum 0) (JNum (-10)) (JStr "cash"))).
  - vm_compute. apply list_elem_of_here.
  - vm_compute. apply not_elem_of_nil.
Qed.

(** ** What a sale writes *)

(** BEGIN and the header INSERT leave [products], [sale_items] and [users]
    alone. *)
Lemma header_preserves inv uid body d :
  let d1 := insert_header inv uid body (begin_transaction d) in
  products (cur d1) = products (cur d)
  ∧ sale_items (cur d1) = sale_items (cur d)
  ∧ users (cur d1) = users (cur d).
Proof.
  unfold insert_header, insert_sale, begin_transaction.
  by destruct (txn d); simpl; case_match.
Qed.


Lemma Forall2_row_of_item sid items rows row :
  Forall2 (row_of_item sid) items rows → row ∈ rows →
  ∃ item, item ∈ items ∧ row_of_item sid item row.
Proof.
  intros HF (i & Hi)%list_elem_of_lookup.
  destruct (Forall2_lookup_r _ _ _ _ _ HF Hi) as (item & Hitem & ?).
  exists item. split; [|done]. apply list_elem_of_lookup. eauto.
Qed.

(** C9 (amended). Every row that [createSale] adds to [sale_items] comes
    from an item of the request, with that item's product, quantity and
    price, and its stored total is the item's [total] when that value is
    truthy, and quantity x price when it is absent or falsy (0, null,
    false, the empty string). *)
Theorem sale_item_total inv uid body d d' r :
  txn d = None →
  createSale inv uid body d = (d', r) →
  ∃ rows,
    sale_items (cur d') = sale_items (cur d) ++ rows
    ∧ ∀ row, row ∈ rows →
        ∃ item,
          item ∈ items_list (Body.items body)
          ∧ SaleItem.product_id row = Item.product_id item
          ∧ SaleItem.quantity row = Item.quantity item
          ∧ SaleItem.price row = Item.price item
          ∧ SaleItem.total row
            = if truthy (Item.total item) then Item.total item
              else JNum (Item.quantity item * Item.price item).
Proof.
  intros Ht H.
  destruct (createSale_cases _ _ _ _ _ _ Ht H)
    as [[_ ->]|[(_ & -> & _)|(dn & _ & _ & E & -> & _)]].
  1,2: exists []; rewrite app_nil_r; split; [done|];
       by intros row ?%elem_of_nil.
  destruct (run_items_rows _ _ _ _ E) as (_ & _ & _ & rows & Hr & Hrows).
  destruct (header_preserves inv uid body d) as (_ & Hsi & _).
  exists rows. simpl. rewrite Hr, Hsi. split; [done|]. intros row Hin.
  case_bool_decide; [|by subst; apply elem_of_nil in Hin].
  destruct (Forall2_row_of_item _ _ _ _ Hrows Hin)
    as (item & ? & _ & ? & ? & ? & ?).
  by exists item.
Qed.

Lemma sale_item_total_witness :
  let run := createSale "INV-1" 7
               (Shop.order [Shop.free_unitsA; Item.mk 2 1 4 (JNum 3)] (JNum 7))
               Shop.empty in
  txn Shop.empty = None
  ∧ ∃ rows,
      sale_items (cur run.1) = sale_items (cur Shop.empty) ++ rows
      ∧ ∀ row, row ∈ rows →
          ∃ item,
            item ∈ [Shop.free_unitsA; Item.mk 2 1 4 (JNum 3)]
            ∧ SaleItem.product_id row = Item.product_id item
            ∧ SaleItem.quantity row = Item.quantity item
            ∧ SaleItem.price row = Item.price item
            ∧ SaleItem.total row
              = if truthy (Item.total item) then Item.total item
                else JNum (Item.quantity item * Item.price item).
Proof.
  split; [reflexivity|].
  apply (sale_item_total "INV-1" 7
           (Shop.order [Shop.free_unitsA; Item.mk 2 1 4 (JNum 3)] (JNum 7))
           Shop.empty _
           (Response 201 (SaleCompleted "INV-1" 1 2 (JNum 7))));
    [reflexivity|by vm_compute].
Defined.

(** C9, as stated, fails: the item below provides the total 0, and the row
    stored for it has the total 3 x 10 = 30. *)
Lemma provided_zero_total_is_replaced :
  ¬ (∀ inv uid body d d' r,
       txn d = None →
       createSale inv uid body d = (d', r) →
       ∀ row, row ∈ sale_items (cur d') → row ∉ sale_items (cur d) →
         ∃ item, item ∈ items_list (Body.items body)
                 ∧ SaleItem.total row = spec_total item).
Proof.
  intros H.
  pose (body := Shop.order [Shop.free_unitsA] (JNum 30)).
  pose (run := createSale "INV-1" 7 body Shop.empty).
  assert (run = (run.1, Response 201 (SaleCompleted "INV-1" 1 1 (JNum 30))))
    as Hrun by (by vm_compute).
  destruct (H "INV-1" 7 body Shop.empty run.1 _ eq_refl Hrun
              (SaleItem.mk 1 1 1 3 10 (JNum 30))) as (item & Hin & Htot).
  - vm_compute. apply list_elem_of_here.
  - vm_compute. apply not_elem_of_nil.
  - simpl in Hin. apply list_elem_of_singleton in Hin as ->. done.
Qed.

(** ** Quantities that are not positive *)

(** An item step passes whenever the requested quantity does not exceed
    the stock, whatever its sign. *)
Lemma processItem_passes saleId item d product :
  select_product d (Item.product_id item) = Some product →
  Item.quantity item ≤ Product.quantity product →
  ∃ d', processItem saleId item d = inl d'
        ∧ stock d' (Item.product_id item)
          = Some (Product.quantity product - Item.quantity item).
Proof.
  intros Hp Hle.
  destruct (processItem saleId item d) as [d'|stop] eqn:E.
  - exists d'. split; [done|].
    unfold stock. pose proof (processItem_product _ _ _ _ _ Hp E) as Hp'.
    unfold select_product in Hp'. by rewrite Hp'.
  - exfalso. unfold processItem in E. rewrite Hp in E.
    destruct (Z.ltb_spec (Product.quantity product) (Item.quantity item));
      [lia|done].
Qed.

(** C8. No step checks the sign of an item's quantity: at any point of
    the loop an item of quantity [n <= q], [q] the current stock of its
    product, passes and leaves the stock [q - n]; a sale of that single
    item is committed.  With [n = 0] the stock stays [q], with [n < 0] it
    grows by [|n|]. *)
Theorem nonpositive_quantity_accepted inv uid body d item product :
  txn d = None →
  Body.items body = ItemsArray [item] →
  truthy (Body.grand_total body) = true →
  products (cur d) !! Item.product_id item = Some product →
  Item.quantity item ≤ Product.quantity product →
  let q := Product.quantity product in
  let n := Item.quantity item in
  (∀ saleId dk, select_product dk (Item.product_id item) = Some product →
     ∃ dk', processItem saleId item dk = inl dk'
            ∧ stock dk' (Item.product_id item) = Some (q - n))
  ∧ ∃ d' sid,
      createSale inv uid body d
      = (d', Response 201 (SaleCompleted inv sid 1 (Body.grand_total body)))
      ∧ txn d' = None
      ∧ stock d' (Item.product_id item) = Some (q - n)
      ∧ (n = 0 → stock d' (Item.product_id item) = Some q)
      ∧ (n < 0 → stock d' (Item.product_id item) = Some (q + Z.abs n)
                 ∧ q < q + Z.abs n).
Proof.
  intros Ht Hitems Hg Hp Hle q n. split.
  { intros saleId dk Hk. by apply processItem_passes. }
  set (d1 := insert_header inv uid body (begin_transaction d)).
  assert (select_product d1 (Item.product_id item) = Some product) as Hp1.
  { unfold select_product, d1.
    by destruct (header_preserves inv uid body d) as (-> & _). }
  destruct (processItem_passes (last_insert_rowid d1) item d1 product Hp1 Hle)
    as (d2 & E & Hs).
  assert (txn d2 = Some (cur d)) as Ht2.
  { rewrite (processItem_txn _ _ _ _ E). unfold d1.
    by rewrite txn_insert_header, txn_begin. }
  exists (mkDb (cur d2) None (last_insert_rowid d2)), (last_insert_rowid d1).
  assert (stock (mkDb (cur d2) None (last_insert_rowid d2))
            (Item.product_id item) = Some (q - n)) as Hstock by done.
  split_and!; try done.
  - rewrite createSale_accepted by (by rewrite ?Hitems).
    cbv zeta. rewrite Hitems. simpl. fold d1. rewrite E.
    by rewrite (commit_open d2 (cur d)).
  - intros Hn. rewrite Hstock. f_equal. lia.
  - intros Hn. rewrite Hstock. split; [f_equal|]; lia.
Qed.

Lemma nonpositive_quantity_accepted_witness :
  let body := Shop.order [Shop.unitsA (-4)] (JNum 1) in
  ∃ d' sid,
    createSale "INV-1" 7 body Shop.empty
    = (d', Response 201 (SaleCompleted "INV-1" sid 1 (JNum 1)))
    ∧ stock d' 1 = Some (5 + Z.abs (-4)).
Proof.
  destruct (nonpositive_quantity_accepted "INV-1" 7
              (Shop.order [Shop.unitsA (-4)] (JNum 1)) Shop.empty
              (Shop.unitsA (-4)) Shop.productA)
    as (_ & d' & sid & Hrun & _ & _ & _ & Hneg);
    [reflexivity|reflexivity|reflexivity|reflexivity|simpl; lia|].
  exists d', sid. split; [exact Hrun|]. apply Hneg. simpl. lia.
Defined.

(** ** A header INSERT that fails *)

(** Inside a transaction and with a sale id that names a stored sale, no
    statement of the item loop fails: the request ends as [processNext]
    describes. *)
Lemma processNext_served_agrees inv saleId n gt items d :
  is_Some (txn d) →
  saleId ∈ Sale.id <$> sales (cur d) →
  processNext_served inv saleId n gt items d
  = Responded (processNext inv saleId n gt items d).1
      (processNext inv saleId n gt items d).2.
Proof.
  revert d. induction items as [|item rest IH]; intros d [snap Ht] Hsale.
  - simpl. unfold commit. by rewrite Ht.
  - cbn [processNext_served processNext]. unfold processItem.
    destruct (select_product d (Item.product_id item)) as [product|] eqn:Hp.
    + destruct (Product.quantity product <? Item.quantity item) eqn:Hq.
      * unfold rollback_and_respond. by rewrite Ht.
      * assert (sale_items_insert_ok (cur d) saleId (Item.product_id item)
                = true) as Hok.
        { unfold sale_items_insert_ok. unfold select_product in Hp.
          rewrite Hp. rewrite bool_decide_eq_true_2 by done.
          by rewrite (bool_decide_eq_true_2 (is_Some (Some product))). }
        rewrite Hok. cbv zeta. apply IH.
        -- rewrite txn_update_product, txn_insert_sale_item. by rewrite Ht.
        -- unfold insert_sale_item. by rewrite Hok.
    + unfold rollback_and_respond. by rewrite Ht.
Qed.

(** C10 (amended). The handler never looks at the outcome of the header
    INSERT: the statement is run without a callback and the sale id is
    read from [last_insert_rowid].  When the INSERT succeeds, the id read
    is the rowid of the new header and the request ends as [createSale]
    describes.  When a constraint of [sales] rejects it (a payment method
    outside cash, card, online; a duplicate invoice number; an unknown
    user), its error has no handler and the process stops at that
    statement: nothing was inserted, no item is processed, no response is
    sent, and the database file keeps the tables as they were before the
    request. *)
Theorem header_failure_stops_the_process inv uid body d :
  txn d = None →
  items_rejected (Body.items body) = false →
  truthy (Body.grand_total body) = true →
  let method := js_or (Body.payment_method body) (JStr "cash") in
  let d0 := begin_transaction d in
  (sales_insert_ok (cur d) inv uid method = false →
     createSale_served inv uid body d = Stopped d0 None
     ∧ insert_header inv uid body d0 = d0
     ∧ committed d0 = cur d)
  ∧ (sales_insert_ok (cur d) inv uid method = true →
     createSale_served inv uid body d
     = Responded (createSale inv uid body d).1 (createSale inv uid body d).2
     ∧ select_last_insert_rowid (insert_header inv uid body d0)
       = Some (next_rowid (sales_seq (cur d)) (Sale.id <$> sales (cur d)))
     ∧ next_rowid (sales_seq (cur d)) (Sale.id <$> sales (cur d))
       ∈ Sale.id <$> sales (cur (insert_header inv uid body d0))).
Proof.
  intros Ht Hi Hg method d0.
  assert (cur d0 = cur d) as Hcur.
  { unfold d0, begin_transaction. by rewrite Ht. }
  assert (txn d0 = Some (cur d)) as Ht0 by by apply txn_begin.
  split; intros Hok.
  - split_and!.
    + unfold createSale_served. unfold items_rejected in Hi.
      rewrite Hi, Hg, Ht. cbn [negb]. cbv zeta. fold d0.
      rewrite Hcur. fold method. by rewrite Hok.
    + apply insert_header_failed. by rewrite Hcur.
    + unfold committed. by rewrite Ht0.
  - destruct (insert_header_done inv uid body d0)
      as (Hlast & _ & _ & _ & row & Hrows & Hid & _);
      [by rewrite Hcur|].
    cbv zeta in Hlast, Hid. rewrite Hcur in Hlast, Hrows, Hid.
    assert (next_rowid (sales_seq (cur d)) (Sale.id <$> sales (cur d))
            ∈ Sale.id <$> sales (cur (insert_header inv uid body d0)))
      as Hin.
    { rewrite Hrows, fmap_app, <- Hid. set_solver. }
    split_and!; [|unfold select_last_insert_rowid; by rewrite Hlast|done].
    rewrite createSale_accepted by done. cbv zeta. fold d0.
    unfold createSale_served. unfold items_rejected in Hi.
    rewrite Hi, Hg, Ht. cbn [negb]. cbv zeta. fold d0.
    rewrite Hcur. fold method. rewrite Hok.
    unfold select_last_insert_rowid.
    apply processNext_served_agrees.
    + rewrite txn_insert_header. by rewrite Ht0.
    + by rewrite Hlast.
Qed.

Lemma header_failure_stops_the_process_witness :
  let body := Shop.order_paid_by "bitcoin" [Shop.unitsA 1] (JNum 10) in
  createSale_served "INV-2" 7 body Shop.after_first_sale
  = Stopped (begin_transaction Shop.after_first_sale) None
  ∧ committed (begin_transaction Shop.after_first_sale)
    = cur Shop.after_first_sale.
Proof.
  destruct (header_failure_stops_the_process "INV-2" 7
              (Shop.order_paid_by "bitcoin" [Shop.unitsA 1] (JNum 10))
              Shop.after_first_sale) as [Hfail _];
    [by vm_compute..|].
  destruct Hfail as (Hstop & _ & Hfile); [by vm_compute|].
  by split.
Defined.

(** C10, as stated, fails: after a rejected header INSERT the request
    does not go on to the item loop with the earlier rowid.  The order
    below is paid by a method that the CHECK constraint rejects; the loop
    started with the earlier rowid would end with a response, the
    request ends with the process stopped. *)
Lemma rejected_header_does_not_reach_the_items :
  ¬ (∀ inv uid body d,
       txn d = None →
       items_rejected (Body.items body) = false →
       truthy (Body.grand_total body) = true →
       sales_insert_ok (cur d) inv uid
         (js_or (Body.payment_method body) (JStr "cash")) = false →
       createSale_served inv uid body d
       = processNext_served inv (last_insert_rowid d)
           (length (items_list (Body.items body))) (Body.grand_total body)
           (items_list (Body.items body)) (begin_transaction d)).
Proof.
  intros H.
  specialize (H "INV-2" 7
                (Shop.order_paid_by "bitcoin" [Shop.unitsA 1] (JNum 10))
                Shop.after_first_sale eq_refl eq_refl eq_refl eq_refl).
  vm_compute in H. discriminate H.
Qed.

(** ** The stock check *)

(** C3. For an item whose product exists, the step stops with the
    not-enough-stock error, naming the product, its current quantity and
    the requested quantity, exactly when the requested quantity exceeds
    the quantity the transaction currently sees; the stopped step writes
    nothing and rolls back, and a [createSale] that ends with this error
    leaves every table as it was.  Otherwise the step passes and leaves
    the quantity [q - n], which is never negative; a request equal to the
    stock leaves quantity 0 and status out_of_stock. *)
Theorem stock_check_exact saleId item d product inv uid body d0 :
  select_product d (Item.product_id item) = Some product →
  txn d0 = None →
  let q := Product.quantity product in
  let n := Item.quantity item in
  (q < n
   ↔ processItem saleId item d
     = inr (rollback d,
            Response 400 (Failure (NotEnoughStock (Product.name product) q n))))
  ∧ (n ≤ q ↔ ∃ d', processItem saleId item d = inl d')
  ∧ (∀ d', processItem saleId item d = inl d' →
       ∃ p', select_product d' (Item.product_id item) = Some p'
             ∧ Product.quantity p' = q - n
             ∧ 0 ≤ Product.quantity p'
             ∧ (n = q → Product.quantity p' = 0
                        ∧ Product.status p' = out_of_stock))
  ∧ (∀ d' name available requested,
       createSale inv uid body d0
       = (d', Response 400 (Failure (NotEnoughStock name available requested))) →
       cur d' = cur d0 ∧ txn d' = None).
Proof.
  intros Hp Ht q n. split_and!.
  - unfold processItem. rewrite Hp. fold q n.
    destruct (Z.ltb_spec q n); split; try done; try lia.
  - split.
    + intros Hle. destruct (processItem_passes saleId item d product Hp Hle)
        as (d' & ? & _). eauto.
    + intros (d' & (product' & Hp' & Hle & _)%processItem_inl).
      assert (product' = product) as -> by congruence. done.
  - intros d' E.
    pose proof E as (product' & Hp' & Hle & _)%processItem_inl.
    assert (product' = product) as -> by congruence.
    eexists. split; [by apply (processItem_product _ _ _ _ _ Hp E)|].
    simpl. fold q n. split_and!; [done|lia|].
    intros ->. rewrite Z.sub_diag. done.
  - intros d' name available requested H.
    destruct (createSale_cases _ _ _ _ _ _ Ht H)
      as [[Hv _]|[(_ & ? & ?)|(dn & _ & _ & _ & _ & ?)]]; done.
Qed.

Lemma stock_check_exact_witness :
  processItem 2 (Shop.unitsA 1) (begin_transaction Shop.sold_out)
  = inr (rollback (begin_transaction Shop.sold_out),
         Response 400 (Failure (NotEnoughStock "A" 0 1))).
Proof.
  apply (stock_check_exact 2 (Shop.unitsA 1) (begin_transaction Shop.sold_out)
           (Product.mk 1 "A" 0 2 out_of_stock) "INV-2" 7
           (Shop.order [Shop.unitsA 1] (JNum 10)) Shop.sold_out);
    [by vm_compute|by vm_compute|simpl; lia].
Defined.

(** The scenario of the specification: A has quantity 5 and min_stock 2;
    selling 3 leaves 2 and low_stock, selling 2 more leaves 0 and
    out_of_stock, and a further sale of 1 is refused. *)
Example scenario_three_sales :
  let s1 := createSale "INV-1" 7 (Shop.order [Shop.unitsA 3] (JNum 30))
              Shop.empty in
  let s2 := createSale "INV-2" 7 (Shop.order [Shop.unitsA 2] (JNum 20)) s1.1 in
  let s3 := createSale "INV-3" 7 (Shop.order [Shop.unitsA 1] (JNum 10)) s2.1 in
  select_product s1.1 1 = Some (Product.mk 1 "A" 2 2 low_stock)
  ∧ select_product s2.1 1 = Some (Product.mk 1 "A" 0 2 out_of_stock)
  ∧ s3.2 = Response 400 (Failure (NotEnoughStock "A" 0 1))
  ∧ cur s3.1 = cur s2.1
  ∧ render (NotEnoughStock "A" 0 1)
    = "Not enough stock for " +:+ String (Ascii.ascii_of_nat 34) "A"
      +:+ String (Ascii.ascii_of_nat 34) ". Available: 0, Requested: 1".
Proof. by vm_compute. Qed.

(** ** Items of one sale that share a product *)

Lemma requested_app pid l1 l2 :
  requested pid (l1 ++ l2) = requested pid l1 + requested pid l2.
Proof.
  induction l1 as [|item l1 IH]; [done|].
  rewrite <-app_comm_cons, !requested_cons, IH. case_decide; lia.
Qed.

Lemma requested_nonneg pid l :
  Forall (λ it, Item.product_id it = pid → 0 ≤ Item.quantity it) l →
  0 ≤ requested pid l.
Proof.
  induction 1 as [|item l Hitem _ IH]; [done|].
  rewrite requested_cons. case_decide; [|done].
  specialize (Hitem ltac:(done)). lia.
Qed.

(** The row of a product after a loop that passed: same name, quantity
    lowered by what the items requested of it. *)
Lemma run_items_product saleId items d d' pid p :
  run_items saleId items d = inl d' →
  select_product d pid = Some p →
  ∃ p', select_product d' pid = Some p'
        ∧ Product.name p' = Product.name p
        ∧ Product.quantity p' = Product.quantity p - requested pid items.
Proof.
  revert d p. induction items as [|item rest IH]; intros d p;
    cbn [run_items].
  - intros [= ->] Hp. exists p. split_and!; [done..|]. simpl. lia.
  - destruct (processItem saleId item d) as [d1|] eqn:E; [|done].
    intros H Hp. rewrite requested_cons.
    destruct (decide (Item.product_id item = pid)) as [<-|Hne].
    + pose proof (processItem_product _ _ _ _ _ Hp E) as Hp1.
      destruct (IH _ _ H Hp1) as (p' & ? & Hn & Hq).
      exists p'. split_and!; [done..|]. rewrite Hq. simpl. lia.
    + pose proof (processItem_other _ _ _ _ _ Hne E) as Hp1.
      rewrite Hp in Hp1. by apply (IH _ _ H Hp1).
Qed.

(** C4 (amended). Items are handled one after the other in the order of
    the request, and the stock check of an item sees the stock lowered by
    every earlier item of the same sale.  Let two items of a sale name the
    same product, of stock [q] before the sale, with [n1 <= q], [n2 <= q]
    and [q < n1 + n2], the other items before the second one that name
    this product having non-negative quantities.  Then the sale fails at
    an item and is rolled back as a whole; when the loop reaches the
    second item, that item finds [q] minus the earlier requests, which is
    less than [n2], and the response is its not-enough-stock error; this
    is always so when the two items are the first two of the sale, where
    the second finds [q - n1]. *)
Theorem same_product_items_in_sequence inv uid body d pre i1 mid i2 post
    product :
  txn d = None →
  Body.items body = ItemsArray (pre ++ i1 :: mid ++ i2 :: post) →
  truthy (Body.grand_total body) = true →
  products (cur d) !! Item.product_id i1 = Some product →
  Item.product_id i2 = Item.product_id i1 →
  Forall (λ it, Item.product_id it = Item.product_id i1 → 0 ≤ Item.quantity it)
    (pre ++ mid) →
  Item.quantity i1 ≤ Product.quantity product →
  Item.quantity i2 ≤ Product.quantity product →
  Product.quantity product < Item.quantity i1 + Item.quantity i2 →
  let d1 := insert_header inv uid body (begin_transaction d) in
  let saleId := last_insert_rowid d1 in
  ∃ d' r,
    createSale inv uid body d = (d', r)
    ∧ is_item_failure r = true
    ∧ cur d' = cur d ∧ txn d' = None
    ∧ (∀ dk, run_items saleId (pre ++ i1 :: mid) d1 = inl dk →
         ∃ available,
           stock dk (Item.product_id i1) = Some available
           ∧ available
             = Product.quantity product
               - requested (Item.product_id i1) (pre ++ i1 :: mid)
           ∧ available < Item.quantity i2
           ∧ r = Response 400
                   (Failure (NotEnoughStock (Product.name product) available
                               (Item.quantity i2))))
    ∧ (pre = [] → mid = [] →
       r = Response 400
             (Failure (NotEnoughStock (Product.name product)
                         (Product.quantity product - Item.quantity i1)
                         (Item.quantity i2)))).
Proof.
  intros Ht Hitems Hg Hp Hsame Hothers H1 H2 Hsum d1 saleId.
  assert (txn d1 = Some (cur d)) as Ht1.
  { unfold d1. by rewrite txn_insert_header, txn_begin. }
  assert (select_product d1 (Item.product_id i1) = Some product) as Hp1.
  { unfold select_product, d1.
    by destruct (header_preserves inv uid body d) as (-> & _). }
  assert (createSale inv uid body d
          = match run_items saleId ((pre ++ i1 :: mid) ++ i2 :: post) d1 with
            | inl dn => processNext inv saleId
                          (length (pre ++ i1 :: mid ++ i2 :: post))
                          (Body.grand_total body) [] dn
            | inr stop => stop
            end) as ->.
  { rewrite createSale_accepted.
    - cbv zeta. rewrite Hitems. simpl items_list. fold d1 saleId.
      rewrite processNext_run_items.
      by rewrite <-app_assoc, <-app_comm_cons.
    - rewrite Hitems. apply items_rejected_array. by destruct pre.
    - done. }
  rewrite run_items_app.
  destruct (run_items saleId (pre ++ i1 :: mid) d1) as [dk|stop] eqn:E.
  - destruct (run_items_product _ _ _ _ _ _ E Hp1) as (p' & Hp' & Hname & Hq).
    assert (Item.quantity i1 ≤ requested (Item.product_id i1)
                                 (pre ++ i1 :: mid)) as Hreq.
    { rewrite requested_app, requested_cons, decide_True by done.
      apply Forall_app in Hothers as [Hpre Hmid].
      apply requested_nonneg in Hpre, Hmid. lia. }
    assert (processItem saleId i2 dk
            = inr (rollback dk,
                   Response 400
                     (Failure (NotEnoughStock (Product.name product)
                                 (Product.quantity p') (Item.quantity i2)))))
      as Estop.
    { unfold processItem. rewrite Hsame, Hp', Hname.
      destruct (Z.ltb_spec (Product.quantity p') (Item.quantity i2));
        [done|lia]. }
    cbn [run_items]. rewrite Estop.
    assert (txn dk = Some (cur d)) as Htk
      by (by rewrite (run_items_txn _ _ _ _ E)).
    destruct (rollback_open _ _ Htk) as [Hcur Htxn].
    eexists _, _. split_and!; [done..| |].
    + intros dk' [= <-]. exists (Product.quantity p').
      split_and!; [|done|lia|done].
      unfold stock. unfold select_product in Hp'. by rewrite Hp'.
    + intros Hpre Hmid. rewrite Hpre, Hmid in Hq. cbn [app] in Hq.
      rewrite requested_cons, decide_True in Hq by done.
      cbn [requested foldr] in Hq. do 3 f_equal. lia.
  - destruct (run_items_inr _ _ _ _ _ Ht1 E) as (? & ? & ?).
    destruct stop as [d' r]. exists d', r. split_and!; [done..|].
    intros Hpre Hmid. exfalso. rewrite Hpre, Hmid in E.
    cbn [app run_items] in E.
    destruct (processItem_passes saleId i1 d1 product Hp1 H1)
      as (d2 & E2 & _).
    by rewrite E2 in E.
Qed.

Lemma same_product_items_in_sequence_witness :
  let body := Shop.order [Shop.unitsA 3; Shop.unitsB 1; Shop.unitsA 3]
                (JNum 64) in
  ∃ d',
    createSale "INV-1" 7 body Shop.empty
    = (d', Response 400 (Failure (NotEnoughStock "A" 2 3)))
    ∧ cur d' = cur Shop.empty ∧ txn d' = None.
Proof.
  destruct (same_product_items_in_sequence "INV-1" 7
              (Shop.order [Shop.unitsA 3; Shop.unitsB 1; Shop.unitsA 3]
                 (JNum 64))
              Shop.empty [] (Shop.unitsA 3) [Shop.unitsB 1] (Shop.unitsA 3) []
              Shop.productA)
    as (d' & r & Hrun & _ & Hcur & Htxn & Hsecond & _);
    [reflexivity|reflexivity|reflexivity|reflexivity|reflexivity
    |repeat constructor; simpl; lia|simpl; lia|simpl; lia|simpl; lia|].
  destruct (Hsecond _ ltac:(by vm_compute)) as (a & Ha & _ & _ & ->).
  assert (a = 2) as -> by (vm_compute in Ha; congruence).
  by exists d'.
Defined.

(** C4, as stated for any two items of a sale, fails: the first and the
    third item below name product A (stock 5) with 3 + 3 > 5 and 3 <= 5,
    but the item of quantity -3 between them gives the stock back, every
    check passes and the sale is completed. *)
Lemma negative_item_between_two_items :
  ¬ (∀ inv uid body d pre i1 mid i2 post product,
       txn d = None →
       Body.items body = ItemsArray (pre ++ i1 :: mid ++ i2 :: post) →
       truthy (Body.grand_total body) = true →
       products (cur d) !! Item.product_id i1 = Some product →
       Item.product_id i2 = Item.product_id i1 →
       Item.quantity i1 ≤ Product.quantity product →
       Item.quantity i2 ≤ Product.quantity product →
       Product.quantity product < Item.quantity i1 + Item.quantity i2 →
       ∃ d' r, createSale inv uid body d = (d', r)
               ∧ is_item_failure r = true).
Proof.
  intros H.
  destruct (H "INV-1" 7
              (Shop.order [Shop.unitsA 3; Shop.unitsA (-3); Shop.unitsA 3]
                 (JNum 30))
              Shop.empty [] (Shop.unitsA 3) [Shop.unitsA (-3)] (Shop.unitsA 3)
              [] Shop.productA)
    as (d' & r & Hrun & Hfail);
    [reflexivity|reflexivity|reflexivity|reflexivity|reflexivity
    |simpl; lia|simpl; lia|simpl; lia|].
  assert ((createSale "INV-1" 7
             (Shop.order [Shop.unitsA 3; Shop.unitsA (-3); Shop.unitsA 3]
                (JNum 30)) Shop.empty).2
          = Response 201 (SaleCompleted "INV-1" 1 3 (JNum 30))) as Hdone
    by (by vm_compute).
  rewrite Hrun in Hdone. simpl in Hdone. by rewrite Hdone in Hfail.
Qed.

(** ** Voiding a sale *)

Section Filter.
Context {A : Type} (P : A → Prop) `{!∀ x, Decision (P x)}.

Lemma filter_keeps_all (l : list A) : Forall P l → filter P l = l.
Proof.
  induction 1 as [|x l Hx _ IH]; [done|].
  by rewrite filter_cons_True, IH.
Qed.

Lemma filter_keeps_none (l : list A) :
  Forall (λ x, ¬ P x) l → filter P l = [].
Proof.
  induction 1 as [|x l Hx _ IH]; [done|].
  by rewrite filter_cons_False.
Qed.
End Filter.

(** An AUTOINCREMENT rowid is larger than every rowid of the table. *)
Lemma next_rowid_above seq ids x : x ∈ ids → x < next_rowid seq ids.
Proof.
  unfold next_rowid. induction 1 as [x ids|x y ids _ IH]; simpl; lia.
Qed.

Lemma next_rowid_fresh seq ids : next_rowid seq ids ∉ ids.
Proof. intros H%(next_rowid_above seq). lia. Qed.

Lemma stock_restore_stock d qty pid' pid :
  stock (restore_stock d qty pid') pid
  = (λ q, if decide (pid' = pid) then q + qty else q) <$> stock d pid.
Proof.
  unfold stock, restore_stock. simpl. rewrite lookup_alter.
  destruct (decide (pid' = pid)) as [->|].
  - by destruct (products (cur d) !! pid).
  - by destruct (products (cur d) !! pid).
Qed.

(** A restore never touches the status column. *)
Lemma status_restore_stock d qty pid' pid :
  Product.status <$> products (cur (restore_stock d qty pid')) !! pid
  = Product.status <$> products (cur d) !! pid.
Proof.
  unfold restore_stock. simpl. rewrite lookup_alter.
  destruct (decide (pid' = pid)) as [->|]; [|done].
  by destruct (products (cur d) !! pid).
Qed.

Lemma recorded_cons pid row rows :
  recorded pid (row :: rows)
  = if decide (SaleItem.product_id row = pid)
    then SaleItem.quantity row + recorded pid rows
    else recorded pid rows.
Proof. done. Qed.

(** The restore loop of the voider: everything but the quantities stays,
    and each product gets back what the rows record for it. *)
Lemma restore_loop rows d :
  let d' := foldl (λ acc item, restore_stock acc (SaleItem.quantity item)
                                 (SaleItem.product_id item)) d rows in
  txn d' = txn d
  ∧ last_insert_rowid d' = last_insert_rowid d
  ∧ users (cur d') = users (cur d)
  ∧ sales (cur d') = sales (cur d)
  ∧ sales_seq (cur d') = sales_seq (cur d)
  ∧ sale_items (cur d') = sale_items (cur d)
  ∧ sale_items_seq (cur d') = sale_items_seq (cur d)
  ∧ ∀ pid, stock d' pid = (λ q, q + recorded pid rows) <$> stock d pid.
Proof.
  revert d. induction rows as [|row rows IH]; intros d; cbn [foldl].
  - split_and!; try done. intros pid.
    destruct (stock d pid); simpl; f_equal; lia.
  - destruct (IH (restore_stock d (SaleItem.quantity row)
                    (SaleItem.product_id row)))
      as (? & ? & ? & ? & ? & ? & ? & Hstock).
    split_and!; try done. intros pid.
    rewrite Hstock, stock_restore_stock, recorded_cons.
    destruct (stock d pid); simpl; [|done].
    case_decide; f_equal; lia.
Qed.


Lemma sale_id_filter_length sid (l : list Sale.t) :
  sid ∈ Sale.id <$> l →
  length (filter (λ s, Sale.id s = sid) l) ≠ 0%nat.
Proof.
  intros (s & -> & Hin)%list_elem_of_fmap.
  assert (s ∈ filter (λ s', Sale.id s' = Sale.id s) l) as Hf
    by (by apply list_elem_of_filter).
  destruct (filter _ l); [by apply elem_of_nil in Hf|done].
Qed.

Lemma delete_sale_inv d sid d3 changes :
  delete_sale d sid = (d3, changes) →
  changes = length (filter (λ s, Sale.id s = sid) (sales (cur d)))
  ∧ txn d3 = txn d
  ∧ products (cur d3) = products (cur d)
  ∧ sales (cur d3) = filter (λ s, Sale.id s ≠ sid) (sales (cur d))
  ∧ sale_items (cur d3)
    = if bool_decide (changes = 0%nat) then sale_items (cur d)
      else filter (λ r, SaleItem.sale_id r ≠ sid) (sale_items (cur d)).
Proof. unfold delete_sale. intros [= <- <-]. done. Qed.

(** The database handed to the last DELETE of the voider. *)
Lemma voidSale_before_delete sid d :
  txn d = None →
  let d2 := delete_sale_items
              (foldl (λ acc item, restore_stock acc (SaleItem.quantity item)
                                    (SaleItem.product_id item))
                 (begin_transaction d) (select_sale_items d sid)) sid in
  txn d2 = Some (cur d)
  ∧ sales (cur d2) = sales (cur d)
  ∧ sale_items (cur d2)
    = filter (λ r, SaleItem.sale_id r ≠ sid) (sale_items (cur d))
  ∧ ∀ pid, stock d2 pid
           = (λ q, q + recorded pid (select_sale_items d sid)) <$> stock d pid.
Proof.
  intros Ht.
  destruct (restore_loop (select_sale_items d sid) (begin_transaction d))
    as (Ht1 & _ & _ & Hs1 & _ & Hi1 & _ & Hstock).
  cbv zeta in *.
  rewrite txn_begin in Ht1 by done.
  rewrite sales_begin_transaction in Hs1.
  unfold delete_sale_items, stock in *. cbn [cur txn with_cur sales sale_items products].
  rewrite Ht1, Hs1, Hi1. split_and!; try done.
  - unfold begin_transaction. by rewrite Ht.
  - intros pid. rewrite Hstock. unfold begin_transaction. by rewrite Ht.
Qed.

(** The voider on the id of an existing sale. *)
Lemma voidSale_existing sid d :
  txn d = None →
  sid ∈ Sale.id <$> sales (cur d) →
  ∃ d2,
    voidSale sid d = (d2, Response 200 SaleVoided)
    ∧ txn d2 = None
    ∧ sales (cur d2) = filter (λ s, Sale.id s ≠ sid) (sales (cur d))
    ∧ sale_items (cur d2)
      = filter (λ r, SaleItem.sale_id r ≠ sid) (sale_items (cur d))
    ∧ ∀ pid, stock d2 pid
             = (λ q, q + recorded pid (select_sale_items d sid))
               <$> stock d pid.
Proof.
  intros Ht Hin. unfold voidSale.
  destruct (voidSale_before_delete sid d Ht) as (Ht2 & Hs2 & Hi2 & Hstock).
  cbv zeta in *.
  destruct (delete_sale _ sid) as [d3 changes] eqn:E3.
  apply delete_sale_inv in E3 as (Hc & Ht3 & Hp3 & Hs3 & Hi3).
  rewrite Hs2 in Hc, Hs3. rewrite Hi2 in Hi3. rewrite Ht2 in Ht3.
  pose proof (sale_id_filter_length _ _ Hin) as Hlen. rewrite <-Hc in Hlen.
  rewrite bool_decide_eq_false_2 in Hi3 by done.
  destruct changes as [|k]; [done|]. cbn [Nat.eqb].
  rewrite (commit_open d3 (cur d)) by done.
  eexists. split; [done|]. cbn [cur txn]. split_and!; try done.
  - rewrite Hi3, list_filter_filter. apply list_filter_iff.
    intros row. tauto.
  - intros pid. rewrite <-Hstock. unfold stock. cbn [cur]. by rewrite Hp3.
Qed.

(** The voider on an id that no sale has: ROLLBACK and "not found". *)
Lemma voidSale_missing sid d :
  txn d = None →
  sid ∉ Sale.id <$> sales (cur d) →
  ∃ d2, voidSale sid d = (d2, Response 404 (Failure SaleNotFound))
        ∧ cur d2 = cur d ∧ txn d2 = None.
Proof.
  intros Ht Hnot. unfold voidSale.
  destruct (voidSale_before_delete sid d Ht) as (Ht2 & Hs2 & _).
  cbv zeta in *.
  destruct (delete_sale _ sid) as [d3 changes] eqn:E3.
  apply delete_sale_inv in E3 as (Hc & Ht3 & _).
  rewrite Hs2 in Hc. rewrite Ht2 in Ht3.
  rewrite (filter_keeps_none (λ s, Sale.id s = sid)) in Hc.
  2:{ apply Forall_forall. intros s Hs Heq. apply Hnot. rewrite <-Heq.
      by apply list_elem_of_fmap_2. }
  subst changes. cbn [length Nat.eqb].
  destruct (rollback_open _ _ Ht3). by eexists.
Qed.

(** *** The two handlers keep the store well formed *)

Lemma sales_header_incl inv uid body d s :
  s ∈ sales (cur d) →
  s ∈ sales (cur (insert_header inv uid body (begin_transaction d))).
Proof.
  rewrite <-(sales_begin_transaction d).
  unfold insert_header, insert_sale. case_match; simpl; [|done].
  rewrite elem_of_app. by left.
Qed.

(** [createSale] leaves no transaction open and keeps every item row
    attached to an existing sale. *)
Lemma createSale_keeps_integrity inv uid body d d' r :
  txn d = None →
  items_reference_sales (cur d) →
  createSale inv uid body d = (d', r) →
  txn d' = None ∧ items_reference_sales (cur d').
Proof.
  intros Ht Hwf H.
  destruct (createSale_cases _ _ _ _ _ _ Ht H)
    as [[_ ->]|[(_ & Hcur & ?)|(dn & _ & _ & E & -> & _)]];
    [done|by rewrite Hcur|].
  split; [done|]. cbv zeta in E. cbn [cur].
  destruct (run_items_rows _ _ _ _ E) as (_ & Hs & _ & rows & Hrows & Hall).
  destruct (header_preserves inv uid body d) as (_ & Hsi & _).
  cbv zeta in Hsi. intros row. rewrite Hrows, Hsi, Hs, elem_of_app.
  intros [Hold|Hnew].
  - apply Hwf in Hold as (s & -> & Hin)%list_elem_of_fmap.
    apply list_elem_of_fmap_2. by apply sales_header_incl.
  - case_bool_decide as Hsid; [|by subst; apply elem_of_nil in Hnew].
    destruct (Forall2_row_of_item _ _ _ _ Hall Hnew) as (item & _ & -> & _).
    done.
Qed.

(** So does [voidSale]. *)
Lemma voidSale_keeps_integrity sid d d' r :
  txn d = None →
  items_reference_sales (cur d) →
  voidSale sid d = (d', r) →
  txn d' = None ∧ items_reference_sales (cur d').
Proof.
  intros Ht Hwf H.
  destruct (decide (sid ∈ Sale.id <$> sales (cur d))) as [Hin|Hnot].
  - destruct (voidSale_existing sid d Ht Hin) as (d2 & Hv & ? & Hs & Hi & _).
    rewrite Hv in H. simplify_eq. split; [done|].
    intros row. rewrite Hi, Hs. intros [Hne Hrow]%list_elem_of_filter.
    apply Hwf in Hrow as (s & Heq & Hs')%list_elem_of_fmap.
    rewrite Heq. apply list_elem_of_fmap_2, list_elem_of_filter.
    split; [congruence|done].
  - destruct (voidSale_missing sid d Ht Hnot) as (d2 & Hv & Hcur & ?).
    rewrite Hv in H. simplify_eq. by rewrite Hcur.
Qed.



(** ** The stock status *)

Lemma newStatus_cases q m :
  (newStatus q m = out_of_stock ↔ q = 0)
  ∧ (newStatus q m = low_stock ↔ q ≠ 0 ∧ q ≤ m)
  ∧ (newStatus q m = in_stock ↔ q ≠ 0 ∧ m < q).
Proof.
  unfold newStatus.
  destruct (Z.eqb_spec q 0), (Z.leb_spec q m); split_and!; split;
    (done || lia || by intros []).
Qed.

(** On quantities that are not negative the computed status is the one
    the specification words. *)
Lemma newStatus_nonneg q m : 0 ≤ q → newStatus q m = spec_deriveStatus q m.
Proof.
  intros Hq. unfold newStatus, spec_deriveStatus.
  destruct (Z.eqb_spec q 0), (Z.leb_spec q m);
    repeat case_decide; done || lia.
Qed.

(** Every passing item step of a sale stores the status derived from the
    quantity it stores. *)
Lemma processItem_status saleId item d d' :
  processItem saleId item d = inl d' →
  ∃ p', select_product d' (Item.product_id item) = Some p'
        ∧ Product.status p'
          = spec_deriveStatus (Product.quantity p') (Product.min_stock p').
Proof.
  intros E. pose proof E as (product & Hp & Hle & _)%processItem_inl.
  eexists. split; [by apply (processItem_product _ _ _ _ _ Hp E)|].
  simpl. apply newStatus_nonneg. lia.
Qed.

(** C1, at the failing input.  Product A (quantity 5, min_stock 2) is sold
    out by a sale of 5 units, which stores quantity 0 and out_of_stock.
    Voiding that sale succeeds and restores the quantity 5, but the
    UPDATE of the voider does not write the status column: the row keeps
    out_of_stock, while the status derived from (5, 2), by the rule of
    the specification and by the computation of the sale step alike, is
    in_stock. *)
Theorem voidSale_leaves_stale_status :
  let voided := voidSale 1 Shop.sold_out in
  select_product Shop.sold_out 1 = Some (Product.mk 1 "A" 0 2 out_of_stock)
  ∧ voided.2 = Response 200 SaleVoided
  ∧ select_product voided.1 1 = Some (Product.mk 1 "A" 5 2 out_of_stock)
  ∧ spec_deriveStatus 5 2 = in_stock
  ∧ newStatus 5 2 = in_stock.
Proof. by vm_compute. Qed.

(** C6 (amended). The sale step and the product editor (create and
    update) compute the status by the same total function of the quantity
    and the threshold, the editor on its parsed and defaulted fields; for
    every quantity that is not negative this function is the rule of the
    specification: out_of_stock iff the quantity is 0, low_stock iff
    0 < quantity <= min_stock, in_stock otherwise. *)
Theorem status_derivation (q m : Z) :
  0 ≤ q →
  newStatus q m = spec_deriveStatus q m
  ∧ (∀ quantity min_stock,
       parsed_or quantity 0 = q → parsed_or min_stock 5 = m →
       post_status quantity min_stock = newStatus q m
       ∧ put_status quantity min_stock = newStatus q m)
  ∧ (newStatus q m = out_of_stock ↔ q = 0)
  ∧ (newStatus q m = low_stock ↔ 0 < q ∧ q ≤ m)
  ∧ (newStatus q m = in_stock ↔ 0 < q ∧ m < q).
Proof.
  intros Hq. destruct (newStatus_cases q m) as (Hout & Hlow & Hin).
  split_and!.
  - by apply newStatus_nonneg.
  - intros quantity min_stock <- <-. done.
  - done.
  - rewrite Hlow. lia.
  - rewrite Hin. lia.
Qed.

Lemma status_derivation_witness :
  newStatus 2 2 = spec_deriveStatus 2 2
  ∧ post_status (Some 2) (Some 2) = low_stock
  ∧ put_status (Some 7) None = in_stock.
Proof.
  destruct (status_derivation 2 2) as (H1 & H2 & _); [lia|].
  destruct (status_derivation 7 5) as (_ & H3 & _); [lia|].
  split_and!.
  - exact H1.
  - by rewrite (proj1 (H2 (Some 2) (Some 2) eq_refl eq_refl)).
  - by rewrite (proj2 (H3 (Some 7) None eq_refl eq_refl)).
Defined.

(** C6, as stated for every integer quantity, fails: a negative quantity
    below the threshold is classified low_stock. *)
Lemma negative_quantity_is_low_stock :
  ¬ (∀ q m : Z,
       (newStatus q m = out_of_stock ↔ q = 0)
       ∧ (newStatus q m = low_stock ↔ 0 < q ∧ q ≤ m)
       ∧ (∀ quantity min_stock,
            parsed_or quantity 0 = q → parsed_or min_stock 5 = m →
            post_status quantity min_stock = low_stock ↔ 0 < q ∧ q ≤ m)).
Proof.
  intros H. destruct (H (-1) 5) as (_ & Hlow & _).
  destruct Hlow as [Hlow _]. specialize (Hlow eq_refl). lia.
Qed.

(** * Further properties of the handlers *)

(** ** The voider, in general *)

(** X1. On a store with no transaction open, [voidSale] answers with
    success exactly when a sale with the given id exists; otherwise it
    answers 404 "Sale not found." and every table is as before (the
    restores it may have issued for item rows under that id are rolled
    back). *)
Theorem voidSale_outcome sid d :
  txn d = None →
  (sid ∈ Sale.id <$> sales (cur d)
   ↔ (voidSale sid d).2 = Response 200 SaleVoided)
  ∧ (sid ∉ Sale.id <$> sales (cur d) →
     (voidSale sid d).2 = Response 404 (Failure SaleNotFound)
     ∧ cur (voidSale sid d).1 = cur d)
  ∧ txn (voidSale sid d).1 = None.
Proof.
  intros Ht.
  destruct (decide (sid ∈ Sale.id <$> sales (cur d))) as [Hin|Hnot].
  - destruct (voidSale_existing sid d Ht Hin) as (d2 & -> & ? & _).
    split_and!; done.
  - destruct (voidSale_missing sid d Ht Hnot) as (d2 & -> & ? & ?).
    split_and!; try done; by split.
Qed.

Lemma voidSale_outcome_witness :
  (voidSale 1 Shop.after_first_sale).2 = Response 200 SaleVoided
  ∧ (voidSale 5 Shop.after_first_sale).2 = Response 404 (Failure SaleNotFound)
  ∧ cur (voidSale 5 Shop.after_first_sale).1 = cur Shop.after_first_sale.
Proof.
  destruct (voidSale_outcome 1 Shop.after_first_sale eq_refl) as ([H1 _] & _).
  destruct (voidSale_outcome 5 Shop.after_first_sale eq_refl) as (_ & H5 & _).
  split.
  - apply H1. vm_compute. apply list_elem_of_here.
  - apply H5. vm_compute. intros Hin. apply list_elem_of_singleton in Hin.
    discriminate Hin.
Defined.

(** X2. Voiding an existing sale, whenever it was created: the rows of
    that sale leave [sales] and [sale_items], every other row stays, in
    its place; each product gets back the quantities that the item rows of
    the sale record for it. *)
Theorem voidSale_effect sid d :
  txn d = None →
  sid ∈ Sale.id <$> sales (cur d) →
  let d' := (voidSale sid d).1 in
  sales (cur d') = filter (λ s, Sale.id s ≠ sid) (sales (cur d))
  ∧ sale_items (cur d')
    = filter (λ r, SaleItem.sale_id r ≠ sid) (sale_items (cur d))
  ∧ (∀ pid, stock d' pid
            = (λ q, q + recorded pid (select_sale_items d sid)) <$> stock d pid)
  ∧ select_sale_items d' sid = []
  ∧ ∀ other, other ≠ sid →
      select_sale_items d' other = select_sale_items d other.
Proof.
  intros Ht Hin.
  destruct (voidSale_existing sid d Ht Hin) as (d2 & -> & _ & Hs & Hi & Hq).
  cbn [fst]. split_and!; try done.
  - unfold select_sale_items. rewrite Hi, list_filter_filter.
    apply filter_keeps_none, Forall_forall. intros r _ [? ?]. done.
  - intros other Hne. unfold select_sale_items.
    rewrite Hi, list_filter_filter. apply list_filter_iff.
    intros r. split; [by intros [? _]|]. intros Hr. split; [done|congruence].
Qed.

Lemma voidSale_effect_witness :
  let d' := (voidSale 1 Shop.after_first_sale).1 in
  stock Shop.after_first_sale 1 = Some 3
  ∧ stock d' 1 = Some 5
  ∧ sales (cur d') = []
  ∧ sale_items (cur d') = [].
Proof.
  destruct (voidSale_effect 1 Shop.after_first_sale eq_refl)
    as (Hs & Hi & Hq & _).
  - vm_compute. apply list_elem_of_here.
  - cbv zeta. rewrite Hs, Hi, Hq. by vm_compute.
Defined.

Lemma restore_stock_columns d qty pid' pid :
  (λ p, (fixed_columns p, Product.status p))
    <$> products (cur (restore_stock d qty pid')) !! pid
  = (λ p, (fixed_columns p, Product.status p)) <$> products (cur d) !! pid.
Proof.
  unfold restore_stock. simpl. rewrite lookup_alter.
  destruct (decide (pid' = pid)) as [->|]; [|done].
  by destruct (products (cur d) !! pid).
Qed.

Lemma restore_loop_columns rows d pid :
  (λ p, (fixed_columns p, Product.status p))
    <$> products (cur (foldl (λ acc item,
                          restore_stock acc (SaleItem.quantity item)
                            (SaleItem.product_id item)) d rows)) !! pid
  = (λ p, (fixed_columns p, Product.status p)) <$> products (cur d) !! pid.
Proof.
  revert d. induction rows as [|row rows IH]; intros d; cbn [foldl]; [done|].
  by rewrite IH, restore_stock_columns.
Qed.

(** The product table the voider leaves when the sale exists: the one of
    its restore loop. *)
Lemma voidSale_products sid d :
  txn d = None →
  sid ∈ Sale.id <$> sales (cur d) →
  products (cur (voidSale sid d).1)
  = products (cur (foldl (λ acc item,
                      restore_stock acc (SaleItem.quantity item)
                        (SaleItem.product_id item))
                     (begin_transaction d) (select_sale_items d sid))).
Proof.
  intros Ht Hin. unfold voidSale.
  destruct (voidSale_before_delete sid d Ht) as (Ht2 & Hs2 & _).
  cbv zeta in *.
  destruct (delete_sale _ sid) as [d3 changes] eqn:E3.
  apply delete_sale_inv in E3 as (Hc & Ht3 & Hp3 & _).
  rewrite Hs2 in Hc. rewrite Ht2 in Ht3.
  pose proof (sale_id_filter_length _ _ Hin) as Hlen. rewrite <-Hc in Hlen.
  destruct changes as [|k]; [done|]. cbn [Nat.eqb].
  rewrite (commit_open d3 (cur d)) by done. cbn [fst cur]. by rewrite Hp3.
Qed.

(** X3. The voider writes nothing but quantities: whatever its outcome,
    every product row keeps its id, name, threshold and status, and no
    product row appears or disappears.  In particular the status of a
    restocked product is not recomputed. *)
Theorem voidSale_writes_only_quantities sid d pid :
  txn d = None →
  (λ p, (fixed_columns p, Product.status p))
    <$> products (cur (voidSale sid d).1) !! pid
  = (λ p, (fixed_columns p, Product.status p)) <$> products (cur d) !! pid.
Proof.
  intros Ht.
  destruct (decide (sid ∈ Sale.id <$> sales (cur d))) as [Hin|Hnot].
  - rewrite (voidSale_products sid d Ht Hin), restore_loop_columns.
    unfold begin_transaction. by rewrite Ht.
  - destruct (voidSale_missing sid d Ht Hnot) as (d2 & Hv & Hc & _).
    rewrite Hv. cbn [fst]. by rewrite Hc.
Qed.

Lemma voidSale_writes_only_quantities_witness :
  Product.status <$> products (cur (voidSale 1 Shop.sold_out).1) !! 1
  = Some out_of_stock
  ∧ stock (voidSale 1 Shop.sold_out).1 1 = Some 5.
Proof.
  split; [|by vm_compute].
  pose proof (voidSale_writes_only_quantities 1 Shop.sold_out 1 eq_refl) as H.
  apply (f_equal (fmap snd)) in H. rewrite <-!option_fmap_compose in H.
  exact H.
Defined.

(** X4. Voiding the same sale a second time finds nothing: the second
    call answers 404 and leaves every table as the first call left it. *)
Theorem voidSale_twice sid d :
  txn d = None →
  (voidSale sid d).2 = Response 200 SaleVoided →
  let d1 := (voidSale sid d).1 in
  (voidSale sid d1).2 = Response 404 (Failure SaleNotFound)
  ∧ cur (voidSale sid d1).1 = cur d1.
Proof.
  intros Ht Hok d1.
  destruct (decide (sid ∈ Sale.id <$> sales (cur d))) as [Hin|Hnot].
  2:{ destruct (voidSale_missing sid d Ht Hnot) as (d2 & Hv & _).
      by rewrite Hv in Hok. }
  destruct (voidSale_existing sid d Ht Hin) as (d2 & Hv & Ht1 & Hs & _).
  assert (d1 = d2) as -> by (unfold d1; by rewrite Hv).
  destruct (voidSale_missing sid d2) as (d3 & Hv3 & ? & _).
  - done.
  - rewrite Hs. intros (s & Heq & [Hne _]%list_elem_of_filter)%list_elem_of_fmap.
    by apply Hne.
  - rewrite Hv3. by split.
Qed.

Lemma voidSale_twice_witness :
  let d1 := (voidSale 1 Shop.after_first_sale).1 in
  (voidSale 1 d1).2 = Response 404 (Failure SaleNotFound)
  ∧ cur (voidSale 1 d1).1 = cur d1.
Proof.
  apply (voidSale_twice 1 Shop.after_first_sale); [reflexivity|by vm_compute].
Defined.

(** ** The sale processor, in general *)

Lemma next_rowid_above_seq seq ids : seq < next_rowid seq ids.
Proof.
  unfold next_rowid. induction ids as [|x ids IH]; simpl; lia.
Qed.

(** The header INSERT when it succeeds, row and counters. *)
Lemma insert_header_row inv uid body d :
  sales_insert_ok (cur d) inv uid
    (js_or (Body.payment_method body) (JStr "cash")) = true →
  let rowid := next_rowid (sales_seq (cur d)) (Sale.id <$> sales (cur d)) in
  sales (cur (insert_header inv uid body d))
  = sales (cur d)
    ++ [Sale.mk rowid inv uid
          (js_or (Body.customer_name body) (JStr "Walk-in Customer"))
          (js_or (Body.subtotal body) (JNum 0))
          (js_or (Body.tax body) (JNum 0))
          (js_or (Body.discount body) (JNum 0))
          (Body.grand_total body)
          (js_or (Body.payment_method body) (JStr "cash"))]
  ∧ sales_seq (cur (insert_header inv uid body d)) = rowid
  ∧ last_insert_rowid (insert_header inv uid body d) = rowid.
Proof. unfold insert_header, insert_sale. by intros ->. Qed.

Lemma cur_begin_transaction d : cur (begin_transaction d) = cur d.
Proof. unfold begin_transaction. by destruct (txn d). Qed.

(** X5. A sale that completes after a successful header INSERT leaves
    exactly one new row in [sales], at the end: it carries the returned
    sale id, the invoice number, the caller's id, the grand total as
    given, and the defaults for absent or falsy fields ('Walk-in
    Customer', 0 for subtotal, tax and discount, 'cash').  The id is
    larger than the id of every existing sale and than the sequence
    counter, which it becomes. *)
Theorem createSale_header_row inv uid body d d' sid n gt :
  txn d = None →
  sales_insert_ok (cur d) inv uid
    (js_or (Body.payment_method body) (JStr "cash")) = true →
  createSale inv uid body d = (d', Response 201 (SaleCompleted inv sid n gt)) →
  sales (cur d')
  = sales (cur d)
    ++ [Sale.mk sid inv uid
          (js_or (Body.customer_name body) (JStr "Walk-in Customer"))
          (js_or (Body.subtotal body) (JNum 0))
          (js_or (Body.tax body) (JNum 0))
          (js_or (Body.discount body) (JNum 0))
          (Body.grand_total body)
          (js_or (Body.payment_method body) (JStr "cash"))]
  ∧ sales_seq (cur d') = sid
  ∧ sales_seq (cur d) < sid
  ∧ ∀ s, s ∈ sales (cur d) → Sale.id s < sid.
Proof.
  intros Ht Hok H.
  destruct (createSale_cases _ _ _ _ _ _ Ht H)
    as [[Hv _]|[(? & _)|(dn & _ & _ & E & -> & Hr)]]; [done..|].
  cbv zeta in E, Hr.
  destruct (insert_header_row inv uid body (begin_transaction d))
    as (Hrow & Hseq & Hlast); [by rewrite cur_begin_transaction|].
  rewrite cur_begin_transaction in Hrow, Hseq, Hlast.
  assert (sid = next_rowid (sales_seq (cur d)) (Sale.id <$> sales (cur d)))
    as -> by congruence.
  destruct (run_items_rows _ _ _ _ E) as (_ & Hs & Hq & _).
  cbn [cur]. rewrite Hs, Hq, Hrow, Hseq. split_and!; try done.
  - apply next_rowid_above_seq.
  - intros s Hin. apply next_rowid_above. by apply list_elem_of_fmap_2.
Qed.

Lemma createSale_header_row_witness :
  let run := createSale "INV-2" 7
               (Shop.order [Shop.unitsA 1] (JNum 10)) Shop.after_first_sale in
  ∃ d', run = (d', Response 201 (SaleCompleted "INV-2" 2 1 (JNum 10)))
        ∧ Sale.invoice_number <$> sales (cur d') = ["INV-1"; "INV-2"]
        ∧ sales_seq (cur d') = 2.
Proof.
  cbv zeta.
  destruct (createSale "INV-2" 7 (Shop.order [Shop.unitsA 1] (JNum 10))
              Shop.after_first_sale) as [d' r] eqn:E.
  assert (r = Response 201 (SaleCompleted "INV-2" 2 1 (JNum 10))) as ->.
  { change r with (d', r).2. rewrite <-E. by vm_compute. }
  destruct (createSale_header_row "INV-2" 7
              (Shop.order [Shop.unitsA 1] (JNum 10))
              Shop.after_first_sale d' 2 1%nat (JNum 10))
    as (Hs & Hq & _); [reflexivity|by vm_compute|exact E|].
  exists d'. split_and!; [done| |done]. rewrite Hs. by vm_compute.
Defined.

Lemma requested_not_named pid items :
  ¬ names_product pid items → requested pid items = 0.
Proof.
  unfold names_product. induction items as [|item items IH]; [done|].
  rewrite fmap_cons, not_elem_of_cons, requested_cons. intros [Hne Hrest].
  rewrite decide_False by done. by apply IH.
Qed.

(** After a loop that passed, no product named by an item is below 0. *)
Lemma run_items_nonneg saleId items d d' pid :
  run_items saleId items d = inl d' →
  names_product pid items →
  ∃ q, stock d' pid = Some q ∧ 0 ≤ q.
Proof.
  revert d. induction items as [|item rest IH]; intros d; cbn [run_items].
  - intros _ Hin. by apply elem_of_nil in Hin.
  - destruct (processItem saleId item d) as [d1|] eqn:E; [|done].
    intros H Hin.
    destruct (decide (pid ∈ Item.product_id <$> rest)) as [Hrest|Hrest];
      [by apply (IH d1)|].
    unfold names_product in Hin. rewrite fmap_cons, elem_of_cons in Hin.
    destruct Hin as [->|Hin]; [|done].
    pose proof E as (product & Hp & Hle & _)%processItem_inl.
    destruct (processItem_passes saleId item d product Hp Hle)
      as (d1' & E' & Hs).
    assert (d1' = d1) as -> by congruence.
    rewrite (run_items_stock _ _ _ _ (Item.product_id item) H), Hs.
    rewrite (requested_not_named _ _ Hrest). simpl.
    eexists. split; [done|]. lia.
Qed.

(** X6. No oversell: after a sale that completes, every product named by
    one of its items has a stored quantity that is not negative, whatever
    the quantities of the items and whatever the stock was before. *)
Theorem createSale_no_negative_stock inv uid body d d' sid n gt pid :
  txn d = None →
  createSale inv uid body d = (d', Response 201 (SaleCompleted inv sid n gt)) →
  names_product pid (items_list (Body.items body)) →
  ∃ q, stock d' pid = Some q ∧ 0 ≤ q.
Proof.
  intros Ht H Hin.
  destruct (createSale_cases _ _ _ _ _ _ Ht H)
    as [[Hv _]|[(? & _)|(dn & _ & _ & E & -> & _)]]; [done..|].
  cbv zeta in E. by apply (run_items_nonneg _ _ _ _ pid E).
Qed.

Lemma createSale_no_negative_stock_witness :
  let body := Shop.order [Shop.unitsA 4; Shop.unitsA (-3); Shop.unitsA 4]
                (JNum 50) in
  ∃ d' q,
    createSale "INV-1" 7 body Shop.empty
    = (d', Response 201 (SaleCompleted "INV-1" 1 3 (JNum 50)))
    ∧ stock d' 1 = Some q ∧ 0 ≤ q.
Proof.
  cbv zeta.
  destruct (createSale "INV-1" 7
              (Shop.order [Shop.unitsA 4; Shop.unitsA (-3); Shop.unitsA 4]
                 (JNum 50)) Shop.empty) as [d' r] eqn:E.
  assert (r = Response 201 (SaleCompleted "INV-1" 1 3 (JNum 50))) as ->.
  { change r with (d', r).2. rewrite <-E. by vm_compute. }
  destruct (createSale_no_negative_stock "INV-1" 7
              (Shop.order [Shop.unitsA 4; Shop.unitsA (-3); Shop.unitsA 4]
                 (JNum 50)) Shop.empty d' 1 3%nat (JNum 50) 1)
    as (q & Hq & Hpos); [reflexivity|exact E| |by exists d', q].
  unfold names_product. simpl. apply list_elem_of_here.
Defined.

(** A passing item step keeps the statuses computed. *)
Lemma processItem_statuses saleId item d d' :
  statuses_computed (cur d) →
  processItem saleId item d = inl d' →
  statuses_computed (cur d').
Proof.
  intros Hinv (product & Hp & _ & ->)%processItem_inl pid p. simpl.
  rewrite products_insert_sale_item.
  intros [(<- & p0 & Hp0 & ->)|(_ & Hp')]%lookup_alter_Some;
    [|by apply (Hinv pid)].
  unfold select_product in Hp. by simplify_eq.
Qed.

Lemma run_items_statuses saleId items d d' :
  statuses_computed (cur d) →
  run_items saleId items d = inl d' →
  statuses_computed (cur d').
Proof.
  revert d. induction items as [|item rest IH]; intros d Hinv;
    cbn [run_items].
  - by intros [= <-].
  - destruct (processItem saleId item d) as [d1|] eqn:E; [|done].
    apply IH. by apply (processItem_statuses _ _ _ _ Hinv E).
Qed.

(** X7. The sale processor keeps the statuses computed: if every product
    row carries the status that the handlers compute from its quantity
    and threshold, this is still so after [createSale], whatever it
    answers. *)
Theorem createSale_keeps_statuses inv uid body d d' r :
  txn d = None →
  statuses_computed (cur d) →
  createSale inv uid body d = (d', r) →
  statuses_computed (cur d').
Proof.
  intros Ht Hinv H.
  destruct (createSale_cases _ _ _ _ _ _ Ht H)
    as [[_ ->]|[(_ & -> & _)|(dn & _ & _ & E & -> & _)]]; [done..|].
  cbv zeta in E. cbn [cur]. eapply run_items_statuses; [|exact E].
  intros pid p. destruct (header_preserves inv uid body d) as (-> & _).
  apply Hinv.
Qed.

Lemma createSale_keeps_statuses_witness :
  statuses_computed (cur Shop.empty)
  ∧ statuses_computed
      (cur (createSale "INV-1" 7
              (Shop.order [Shop.unitsA 3; Shop.unitsB 1] (JNum 34))
              Shop.empty).1).
Proof.
  assert (statuses_computed (cur Shop.empty)) as Hinv.
  { intros pid p. change (products (cur Shop.empty))
      with ({[1 := Shop.productA; 2 := Shop.productB]} : gmap Z Product.t).
    by intros [[_ <-]|[_ [_ <-]%lookup_singleton_Some]]%lookup_insert_Some. }
  split; [exact Hinv|].
  apply (createSale_keeps_statuses "INV-1" 7
           (Shop.order [Shop.unitsA 3; Shop.unitsB 1] (JNum 34)) Shop.empty
           _ (Response 201 (SaleCompleted "INV-1" 1 2 (JNum 34))));
    [reflexivity|exact Hinv|by vm_compute].
Defined.

Lemma processItem_columns saleId item d d' pid :
  processItem saleId item d = inl d' →
  fixed_columns <$> products (cur d') !! pid
  = fixed_columns <$> products (cur d) !! pid.
Proof.
  intros (product & _ & _ & ->)%processItem_inl. simpl.
  rewrite products_insert_sale_item, lookup_alter.
  destruct (decide (Item.product_id item = pid)) as [->|]; [|done].
  by destruct (products (cur d) !! pid).
Qed.

Lemma run_items_columns saleId items d d' pid :
  run_items saleId items d = inl d' →
  fixed_columns <$> products (cur d') !! pid
  = fixed_columns <$> products (cur d) !! pid.
Proof.
  revert d. induction items as [|item rest IH]; intros d; cbn [run_items].
  - by intros [= <-].
  - destruct (processItem saleId item d) as [d1|] eqn:E; [|done].
    intros H. by rewrite (IH _ H), (processItem_columns _ _ _ _ pid E).
Qed.

Lemma run_items_untouched saleId items d d' pid :
  ¬ names_product pid items →
  run_items saleId items d = inl d' →
  products (cur d') !! pid = products (cur d) !! pid.
Proof.
  unfold names_product. revert d.
  induction items as [|item rest IH]; intros d Hnot; cbn [run_items].
  - by intros [= <-].
  - rewrite fmap_cons, not_elem_of_cons in Hnot. destruct Hnot as [Hne Hrest].
    destruct (processItem saleId item d) as [d1|] eqn:E; [|done].
    intros H. rewrite (IH _ Hrest H).
    by apply (processItem_other _ _ _ _ pid (not_eq_sym Hne) E).
Qed.

(** X8. What a sale can change in the catalogue: [createSale] never adds
    or removes a product or a user, never changes the id, name or
    threshold of a product, and leaves every product that no item names
    exactly as it was. *)
Theorem createSale_touches_named_products inv uid body d d' r pid :
  txn d = None →
  createSale inv uid body d = (d', r) →
  users (cur d') = users (cur d)
  ∧ fixed_columns <$> products (cur d') !! pid
    = fixed_columns <$> products (cur d) !! pid
  ∧ (¬ names_product pid (items_list (Body.items body)) →
     products (cur d') !! pid = products (cur d) !! pid).
Proof.
  intros Ht H.
  destruct (createSale_cases _ _ _ _ _ _ Ht H)
    as [[_ ->]|[(_ & -> & _)|(dn & _ & _ & E & -> & _)]]; [done..|].
  cbv zeta in E. cbn [cur].
  destruct (header_preserves inv uid body d) as (Hp & _ & Hu).
  cbv zeta in Hp, Hu.
  destruct (run_items_rows _ _ _ _ E) as (Hu' & _).
  split_and!.
  - congruence.
  - by rewrite (run_items_columns _ _ _ _ pid E), Hp.
  - intros Hnot. by rewrite (run_items_untouched _ _ _ _ pid Hnot E), Hp.
Qed.

Lemma createSale_touches_named_products_witness :
  let d' := (createSale "INV-1" 7 (Shop.order [Shop.unitsA 3] (JNum 30))
               Shop.empty).1 in
  products (cur d') !! 2 = Some Shop.productB
  ∧ fixed_columns <$> products (cur d') !! 1 = Some (1, "A", 2).
Proof.
  destruct (createSale_touches_named_products "INV-1" 7
              (Shop.order [Shop.unitsA 3] (JNum 30)) Shop.empty
              (createSale "INV-1" 7 (Shop.order [Shop.unitsA 3] (JNum 30))
                 Shop.empty).1
              (Response 201 (SaleCompleted "INV-1" 1 1 (JNum 30))) 2)
    as (_ & _ & HB); [reflexivity|by vm_compute|].
  destruct (createSale_touches_named_products "INV-1" 7
              (Shop.order [Shop.unitsA 3] (JNum 30)) Shop.empty
              (createSale "INV-1" 7 (Shop.order [Shop.unitsA 3] (JNum 30))
                 Shop.empty).1
              (Response 201 (SaleCompleted "INV-1" 1 1 (JNum 30))) 1)
    as (_ & HA & _); [reflexivity|by vm_compute|].
  cbv zeta. split.
  - rewrite HB; [by vm_compute|].
    unfold names_product. simpl. intros Hin.
    apply list_elem_of_singleton in Hin. discriminate Hin.
  - rewrite HA. by vm_compute.
Defined.

(** ** Sequences of requests *)

Lemma ids_filter sid (l : list Sale.t) :
  Sale.id <$> filter (λ s, Sale.id s ≠ sid) l
  = filter (λ n, n ≠ sid) (Sale.id <$> l).
Proof.
  induction l as [|s l IH]; [done|].
  rewrite fmap_cons, !filter_cons. case_decide; by rewrite ?fmap_cons, IH.
Qed.

(** The voider never moves the sequence counter of [sales]. *)
Lemma voidSale_sales_seq sid d :
  txn d = None →
  sales_seq (cur (voidSale sid d).1) = sales_seq (cur d).
Proof.
  intros Ht.
  destruct (decide (sid ∈ Sale.id <$> sales (cur d))) as [Hin|Hnot].
  2:{ destruct (voidSale_missing sid d Ht Hnot) as (d2 & Hv & Hc & _).
      rewrite Hv. cbn [fst]. by rewrite Hc. }
  unfold voidSale.
  destruct (restore_loop (select_sale_items d sid) (begin_transaction d))
    as (_ & _ & _ & _ & Hq & _).
  destruct (voidSale_before_delete sid d Ht) as (Ht2 & Hs2 & _).
  cbv zeta in *.
  destruct (delete_sale _ sid) as [d3 changes] eqn:E3.
  pose proof E3 as (Hc & Ht3 & _)%delete_sale_inv.
  assert (sales_seq (cur d3) = sales_seq (cur d)) as Hq3.
  { unfold delete_sale in E3. simplify_eq. cbn [cur with_cur sales_seq].
    unfold delete_sale_items. cbn [cur with_cur sales_seq].
    by rewrite Hq, cur_begin_transaction. }
  rewrite Hs2 in Hc. rewrite Ht2 in Ht3.
  pose proof (sale_id_filter_length _ _ Hin) as Hlen. rewrite <-Hc in Hlen.
  destruct changes as [|k]; [done|]. cbn [Nat.eqb].
  by rewrite (commit_open d3 (cur d)).
Qed.

(** How [createSale] leaves [sales] and its counter: as they were, or
    with one more row that has the next rowid, which the counter takes. *)
Lemma createSale_sales inv uid body d d' r :
  txn d = None →
  createSale inv uid body d = (d', r) →
  (sales (cur d') = sales (cur d) ∧ sales_seq (cur d') = sales_seq (cur d))
  ∨ ∃ row,
      sales (cur d') = sales (cur d) ++ [row]
      ∧ Sale.id row
        = next_rowid (sales_seq (cur d)) (Sale.id <$> sales (cur d))
      ∧ sales_seq (cur d') = Sale.id row.
Proof.
  intros Ht H.
  destruct (createSale_cases _ _ _ _ _ _ Ht H)
    as [[_ ->]|[(_ & -> & _)|(dn & _ & _ & E & -> & _)]]; [by left..|].
  cbv zeta in E. cbn [cur].
  destruct (run_items_rows _ _ _ _ E) as (_ & -> & -> & _).
  destruct (sales_insert_ok (cur d) inv uid
              (js_or (Body.payment_method body) (JStr "cash"))) eqn:Hok.
  - destruct (insert_header_row inv uid body (begin_transaction d))
      as (Hrow & Hseq & _); [by rewrite cur_begin_transaction|].
    rewrite cur_begin_transaction in Hrow, Hseq.
    right. eexists. by rewrite Hrow, Hseq.
  - rewrite insert_header_failed by (by rewrite cur_begin_transaction).
    left. by rewrite cur_begin_transaction.
Qed.

Lemma createSale_store_ok inv uid body d d' r :
  store_ok d → createSale inv uid body d = (d', r) → store_ok d'.
Proof.
  intros (Ht & Hwf & Hnd & Hseq) H.
  destruct (createSale_keeps_integrity _ _ _ _ _ _ Ht Hwf H) as [Ht' Hwf'].
  destruct (createSale_sales _ _ _ _ _ _ Ht H)
    as [[Hs Hq]|(row & Hs & Hid & Hq)]; unfold store_ok; rewrite Hs, Hq.
  { by split_and!. }
  split_and!; [done..| |].
  - rewrite fmap_app. apply NoDup_app. split_and!; [done| |].
    + intros x Hx Hin. simpl in Hin. apply list_elem_of_singleton in Hin.
      subst x. rewrite Hid in Hx. by apply next_rowid_fresh in Hx.
    + simpl. apply NoDup_singleton.
  - intros s [Hin|Hin]%elem_of_app.
    + rewrite Hid.
      pose proof (next_rowid_above (sales_seq (cur d)) _ _
                    (list_elem_of_fmap_2 Sale.id _ _ Hin)). lia.
    + apply list_elem_of_singleton in Hin. by subst s.
Qed.

Lemma voidSale_store_ok sid d d' r :
  store_ok d → voidSale sid d = (d', r) → store_ok d'.
Proof.
  intros (Ht & Hwf & Hnd & Hseq) H.
  destruct (voidSale_keeps_integrity _ _ _ _ Ht Hwf H) as [Ht' Hwf'].
  pose proof (voidSale_sales_seq sid d Ht) as Hq. rewrite H in Hq.
  cbn [fst] in Hq.
  split_and!; [done..| |].
  - destruct (decide (sid ∈ Sale.id <$> sales (cur d))) as [Hin|Hnot].
    + destruct (voidSale_existing sid d Ht Hin) as (d2 & Hv & _ & Hs & _).
      rewrite Hv in H. simplify_eq. rewrite Hs, ids_filter.
      by eapply sublist_NoDup, sublist_filter.
    + destruct (voidSale_missing sid d Ht Hnot) as (d2 & Hv & Hc & _).
      rewrite Hv in H. simplify_eq. by rewrite Hc.
  - intros s Hs. rewrite Hq. apply Hseq.
    destruct (decide (sid ∈ Sale.id <$> sales (cur d))) as [Hin|Hnot].
    + destruct (voidSale_existing sid d Ht Hin) as (d2 & Hv & _ & Hs' & _).
      rewrite Hv in H. simplify_eq. rewrite Hs' in Hs.
      by apply list_elem_of_filter in Hs as [_ ?].
    + destruct (voidSale_missing sid d Ht Hnot) as (d2 & Hv & Hc & _).
      rewrite Hv in H. simplify_eq. by rewrite Hc in Hs.
Qed.

Lemma store_ok_serve rqs d : store_ok d → store_ok (serve rqs d).1.
Proof.
  revert d. induction rqs as [|rq rest IH]; intros d Hok; [done|].
  cbn [serve]. destruct (handle rq d) as [d1 r] eqn:E.
  assert (store_ok d1) as Hok1.
  { destruct rq; simpl in E.
    - by eapply createSale_store_ok.
    - by eapply voidSale_store_ok. }
  specialize (IH d1 Hok1). by destruct (serve rest d1) as [d2 rs].
Qed.




(** The id that a completed sale with a stored header returns: above the
    counter of before, and the counter of after. *)
Lemma createSale_issued_id inv uid body d d' sid n gt :
  txn d = None →
  sales_insert_ok (cur d) inv uid
    (js_or (Body.payment_method body) (JStr "cash")) = true →
  createSale inv uid body d = (d', Response 201 (SaleCompleted inv sid n gt)) →
  sales_seq (cur d) < sid ∧ sales_seq (cur d') = sid.
Proof.
  intros Ht Hok H.
  destruct (createSale_cases _ _ _ _ _ _ Ht H)
    as [[Hv _]|[(? & _)|(dn & _ & _ & E & -> & Hr)]]; [done..|].
  cbv zeta in E, Hr.
  destruct (insert_header_row inv uid body (begin_transaction d))
    as (_ & Hseq & Hlast); [by rewrite cur_begin_transaction|].
  rewrite cur_begin_transaction in Hseq, Hlast.
  destruct (run_items_rows _ _ _ _ E) as (_ & _ & Hq & _).
  cbn [cur]. rewrite Hq, Hseq. simplify_eq. rewrite Hlast.
  split; [apply next_rowid_above_seq|done].
Qed.

Lemma handle_store_ok rq d : store_ok d → store_ok (handle rq d).1.
Proof.
  intros Hok. destruct (handle rq d) as [d1 r] eqn:E.
  destruct rq; simpl in E.
  - by eapply createSale_store_ok.
  - by eapply voidSale_store_ok.
Qed.

(** No request lowers the sequence counter of [sales]. *)
Lemma serve_sales_seq rqs d :
  store_ok d → sales_seq (cur d) ≤ sales_seq (cur (serve rqs d).1).
Proof.
  revert d. induction rqs as [|rq rest IH]; intros d Hok; [done|].
  cbn [serve]. pose proof (handle_store_ok rq d Hok) as Hok1.
  destruct (handle rq d) as [d1 r] eqn:E. cbn [fst] in Hok1.
  specialize (IH d1 Hok1). destruct (serve rest d1) as [d2 rs].
  cbn [fst] in *. etrans; [|exact IH].
  destruct Hok as (Ht & _). destruct rq; simpl in E.
  - destruct (createSale_sales _ _ _ _ _ _ Ht E)
      as [[_ ->]|(row & _ & Hid & ->)]; [done|].
    rewrite Hid. pose proof (next_rowid_above_seq (sales_seq (cur d))
                               (Sale.id <$> sales (cur d))). lia.
  - pose proof (voidSale_sales_seq sid d Ht) as Hq. rewrite E in Hq.
    cbn [fst] in Hq. by rewrite Hq.
Qed.

(** X10. Sale ids are never handed out twice: the id returned for a
    completed sale is smaller than the id returned for any sale completed
    later, whatever was served in between, including the voiding of the
    first sale. *)
Theorem sale_ids_never_reused inv1 uid1 body1 inv2 uid2 body2 rqs
    d d1 sid1 n1 gt1 d3 sid2 n2 gt2 :
  store_ok d →
  sales_insert_ok (cur d) inv1 uid1
    (js_or (Body.payment_method body1) (JStr "cash")) = true →
  createSale inv1 uid1 body1 d
  = (d1, Response 201 (SaleCompleted inv1 sid1 n1 gt1)) →
  sales_insert_ok (cur (serve rqs d1).1) inv2 uid2
    (js_or (Body.payment_method body2) (JStr "cash")) = true →
  createSale inv2 uid2 body2 (serve rqs d1).1
  = (d3, Response 201 (SaleCompleted inv2 sid2 n2 gt2)) →
  sid1 < sid2.
Proof.
  intros Hok Hok1 H1 Hok2 H2.
  pose proof (createSale_store_ok _ _ _ _ _ _ Hok H1) as Hst1.
  destruct Hok as (Ht & _).
  destruct (createSale_issued_id _ _ _ _ _ _ _ _ Ht Hok1 H1) as [_ Hseq1].
  pose proof (serve_sales_seq rqs d1 Hst1) as Hmono.
  destruct (store_ok_serve rqs d1 Hst1) as (Ht2 & _).
  destruct (createSale_issued_id _ _ _ _ _ _ _ _ Ht2 Hok2 H2) as [Hlt _].
  lia.
Qed.

Lemma sale_ids_never_reused_witness :
  let first := createSale "INV-1" 7 (Shop.order [Shop.unitsA 2] (JNum 20))
                 Shop.empty in
  let between := serve [VoidSale 1] first.1 in
  let second := createSale "INV-2" 7 (Shop.order [Shop.unitsB 1] (JNum 4))
                  between.1 in
  first.2 = Response 201 (SaleCompleted "INV-1" 1 1 (JNum 20))
  ∧ sales (cur between.1) = []
  ∧ second.2 = Response 201 (SaleCompleted "INV-2" 2 1 (JNum 4))
  ∧ 1 < 2.
Proof.
  split_and!; [by vm_compute..|].
  apply (sale_ids_never_reused "INV-1" 7
           (Shop.order [Shop.unitsA 2] (JNum 20)) "INV-2" 7
           (Shop.order [Shop.unitsB 1] (JNum 4)) [VoidSale 1] Shop.empty
           (createSale "INV-1" 7 (Shop.order [Shop.unitsA 2] (JNum 20))
              Shop.empty).1 1 1%nat (JNum 20)
           (createSale "INV-2" 7 (Shop.order [Shop.unitsB 1] (JNum 4))
              (serve [VoidSale 1]
                 (createSale "INV-1" 7 (Shop.order [Shop.unitsA 2] (JNum 20))
                    Shop.empty).1).1).1 2 1%nat (JNum 4)).
  - split_and!; [done| |apply NoDup_nil_2|]; by intros x Hx%elem_of_nil.
  - by vm_compute.
  - by vm_compute.
  - by vm_compute.
  - by vm_compute.
Defined.

(** ** Looking up one sale *)

Section SingleSaleFacts.
Variable rowid_of_text : string → option Z.

Lemma head_filter_elem (n : Z) (l : list Sale.t) sale :
  head (filter (λ s, Sale.id s = n) l) = Some sale →
  sale ∈ l ∧ Sale.id sale = n.
Proof.
  intros Hh. assert (sale ∈ filter (λ s, Sale.id s = n) l) as Hin.
  { destruct (filter _ l) as [|x rest]; simplify_eq/=. apply list_elem_of_here. }
  by apply list_elem_of_filter in Hin as [? ?].
Qed.

(** What the handler has checked when it answers with a sale. *)
Lemma getSale_found_facts id who d sale lines :
  getSale rowid_of_text id who d = SaleFound sale lines →
  id ≠ "reports"
  ∧ rowid_of_text id = Some (Sale.id sale)
  ∧ sale ∈ sales (cur d)
  ∧ (userRole who = "admin" ∨ Sale.user_id sale = userId who)
  ∧ lines
    = (λ r, (r, Product.name <$> products (cur d) !! SaleItem.product_id r))
      <$> select_sale_items d (Sale.id sale).
Proof.
  unfold getSale. destruct (String.eqb_spec id "reports") as [|Hne]; [done|].
  destruct (select_sale rowid_of_text d id) as [s|] eqn:Es; [|done].
  unfold select_sale in Es.
  destruct (rowid_of_text id) as [n|] eqn:En; [|done].
  apply head_filter_elem in Es as [Hin Hid].
  destruct (String.eqb_spec (userRole who) "admin") as [Hadm|Hadm];
    destruct (Z.eqb_spec (Sale.user_id s) (userId who)) as [Hown|Hown];
    simpl; intros [= <- <-]; try done;
    (split_and!; [done|by rewrite Hid|done|by auto|]);
    unfold select_sale_lines, select_sale_items; by rewrite En, Hid.
Qed.

(** X11. The single-sale handler hands out a sale only to an admin or to
    the user recorded as its creator: when it answers with a sale, the
    parameter is not 'reports' and reads as the id of that sale, the sale
    is a row of [sales], the caller has the role 'admin' or the sale's
    [user_id], and the lines are the item rows of that sale, each with the
    name of its product. *)
Theorem getSale_found id who d sale lines :
  getSale rowid_of_text id who d = SaleFound sale lines →
  id ≠ "reports"
  ∧ rowid_of_text id = Some (Sale.id sale)
  ∧ sale ∈ sales (cur d)
  ∧ (userRole who = "admin" ∨ Sale.user_id sale = userId who)
  ∧ lines
    = (λ r, (r, Product.name <$> products (cur d) !! SaleItem.product_id r))
      <$> select_sale_items d (Sale.id sale).
Proof. apply getSale_found_facts. Qed.

End SingleSaleFacts.

Lemma getSale_found_witness :
  ∃ sale lines,
    getSale Desk.rowid_of_text "1" Desk.ann Shop.after_first_sale
    = SaleFound sale lines
    ∧ Desk.rowid_of_text "1" = Some (Sale.id sale)
    ∧ (userRole Desk.ann = "admin" ∨ Sale.user_id sale = userId Desk.ann).
Proof.
  destruct (getSale Desk.rowid_of_text "1" Desk.ann Shop.after_first_sale)
    as [code e|sale lines] eqn:E; [by vm_compute in E|].
  exists sale, lines. split; [done|].
  by destruct (getSale_found Desk.rowid_of_text "1" Desk.ann
                 Shop.after_first_sale sale lines E) as (_ & ? & _ & ? & _).
Defined.

Lemma Forall2_and_left {A B} (P : A → B → Prop) (Q : A → Prop) l k :
  Forall2 P l k → Forall Q l → Forall2 (λ x y, P x y ∧ Q x) l k.
Proof.
  induction 1 as [|x y l k Hxy _ IH]; [constructor|].
  intros [Hx Hl]%Forall_cons. constructor; [done|by apply IH].
Qed.

(** Every item of a loop that passed names a product that exists. *)
Lemma run_items_products_exist saleId items d d' item :
  run_items saleId items d = inl d' →
  item ∈ items →
  is_Some (products (cur d) !! Item.product_id item).
Proof.
  revert d. induction items as [|it rest IH]; intros d; cbn [run_items].
  - intros _ Hin. by apply elem_of_nil in Hin.
  - destruct (processItem saleId it d) as [d1|] eqn:E; [|done].
    intros H [->|Hin]%elem_of_cons.
    + apply processItem_inl in E as (product & Hp & _). by exists product.
    + specialize (IH d1 H Hin).
      pose proof (processItem_columns _ _ _ _ (Item.product_id item) E) as Hc.
      destruct IH as [p Hp]. rewrite Hp in Hc.
      destruct (products (cur d) !! Item.product_id item); [eauto|done].
Qed.

(** What a completed sale with a stored header leaves in the store. *)
Lemma createSale_fresh_sale inv uid body d d' sid n gt :
  txn d = None →
  items_reference_sales (cur d) →
  sales_insert_ok (cur d) inv uid
    (js_or (Body.payment_method body) (JStr "cash")) = true →
  createSale inv uid body d = (d', Response 201 (SaleCompleted inv sid n gt)) →
  ∃ rows,
    sales (cur d')
    = sales (cur d)
      ++ [Sale.mk sid inv uid
            (js_or (Body.customer_name body) (JStr "Walk-in Customer"))
            (js_or (Body.subtotal body) (JNum 0))
            (js_or (Body.tax body) (JNum 0))
            (js_or (Body.discount body) (JNum 0))
            (Body.grand_total body)
            (js_or (Body.payment_method body) (JStr "cash"))]
    ∧ (sid ∉ Sale.id <$> sales (cur d))
    ∧ select_sale_items d' sid = rows
    ∧ Forall2 (row_of_item sid) (items_list (Body.items body)) rows
    ∧ (∀ pid, fixed_columns <$> products (cur d') !! pid
              = fixed_columns <$> products (cur d) !! pid)
    ∧ ∀ item, item ∈ items_list (Body.items body) →
        is_Some (products (cur d) !! Item.product_id item).
Proof.
  intros Ht Hwf Hok H.
  destruct (createSale_cases _ _ _ _ _ _ Ht H)
    as [[Hv _]|[(? & _)|(dn & _ & _ & E & -> & Hr)]]; [done..|].
  cbv zeta in E, Hr.
  destruct (insert_header_row inv uid body (begin_transaction d))
    as (Hrow & _ & Hlast); [by rewrite cur_begin_transaction|].
  rewrite cur_begin_transaction in Hrow, Hlast.
  destruct (header_preserves inv uid body d) as (Hp & Hsi & _).
  cbv zeta in Hp, Hsi.
  assert (sid = next_rowid (sales_seq (cur d)) (Sale.id <$> sales (cur d)))
    as Hsid by congruence.
  rewrite Hlast, <-Hsid in E.
  assert (sid ∉ Sale.id <$> sales (cur d)) as Hfresh
    by (rewrite Hsid; apply next_rowid_fresh).
  destruct (run_items_rows _ _ _ _ E) as (_ & Hs & _ & rows & Hrows & Hall).
  rewrite Hrow, <-Hsid in Hs, Hall. rewrite Hsi in Hrows.
  rewrite bool_decide_eq_true_2 in Hall.
  2:{ rewrite fmap_app, elem_of_app. right. simpl. apply list_elem_of_here. }
  exists rows. cbn [cur]. split_and!; try done.
  - unfold select_sale_items. cbn [cur]. rewrite Hrows, filter_app.
    rewrite (filter_keeps_none (λ r, SaleItem.sale_id r = sid)).
    2:{ apply Forall_forall. intros r Hr' Heq. apply Hfresh. rewrite <-Heq.
        by apply Hwf. }
    rewrite filter_keeps_all; [done|].
    clear -Hall. induction Hall as [|?? ?? (? & _)]; by constructor.
  - intros pid. by rewrite (run_items_columns _ _ _ _ pid E), Hp.
  - intros item Hin.
    destruct (run_items_products_exist _ _ _ _ item E Hin) as [p Hp'].
    rewrite Hp in Hp'. eauto.
Qed.

Section RoundTrip.
Variable rowid_of_text : string → option Z.

(** X12. Reading back a sale that has just been created: for the
    parameter that reads as the returned id, an admin and the creator get
    the stored header (returned id, invoice number, creator, totals with
    their defaults) and one line per item of the request, in the order of
    the request, with that item's product, quantity, price and stored
    total and with the name of the product; any other caller gets 403
    "Permission denied." *)
Theorem createSale_then_getSale inv uid body d d' sid n gt id who :
  txn d = None →
  items_reference_sales (cur d) →
  sales_insert_ok (cur d) inv uid
    (js_or (Body.payment_method body) (JStr "cash")) = true →
  createSale inv uid body d = (d', Response 201 (SaleCompleted inv sid n gt)) →
  rowid_of_text id = Some sid →
  id ≠ "reports" →
  if bool_decide (userRole who = "admin" ∨ userId who = uid) then
    ∃ lines,
      getSale rowid_of_text id who d'
      = SaleFound
          (Sale.mk sid inv uid
             (js_or (Body.customer_name body) (JStr "Walk-in Customer"))
             (js_or (Body.subtotal body) (JNum 0))
             (js_or (Body.tax body) (JNum 0))
             (js_or (Body.discount body) (JNum 0))
             (Body.grand_total body)
             (js_or (Body.payment_method body) (JStr "cash")))
          lines
      ∧ Forall2 (λ item line,
                   row_of_item sid item line.1
                   ∧ ∃ p, products (cur d) !! Item.product_id item = Some p
                          ∧ line.2 = Some (Product.name p))
          (items_list (Body.items body)) lines
  else getSale rowid_of_text id who d' = SaleError 403 PermissionDenied.
Proof.
  intros Ht Hwf Hok H Hid Hne.
  destruct (createSale_fresh_sale _ _ _ _ _ _ _ _ Ht Hwf Hok H)
    as (rows & Hs & Hfresh & Hsel & Hall & Hcols & Hex).
  unfold getSale. rewrite (proj2 (String.eqb_neq _ _) Hne).
  unfold select_sale, select_sale_lines. rewrite Hid, Hs, filter_app.
  rewrite (filter_keeps_none (λ s, Sale.id s = sid)).
  2:{ apply Forall_forall. intros s Hin Heq. apply Hfresh. rewrite <-Heq.
      by apply list_elem_of_fmap_2. }
  rewrite filter_cons_True by done. cbn [app head Sale.user_id].
  case_bool_decide as Hallowed.
  - assert (negb (String.eqb (userRole who) "admin")
            && negb (uid =? userId who) = false) as ->.
    { destruct Hallowed as [->| ->]; [done|].
      rewrite Z.eqb_refl. apply andb_false_r. }
    eexists. split; [done|].
    change (filter (λ r, SaleItem.sale_id r = sid) (sale_items (cur d')))
      with (select_sale_items d' sid).
    rewrite Hsel. clear Hsel. apply Forall2_fmap_r.
    apply Forall_forall in Hex.
    eapply Forall2_impl; [exact (Forall2_and_left _ _ _ _ Hall Hex)|].
    intros item row [Hrow [p Hp]]. split; [done|]. cbn [snd].
    exists p. split; [done|].
    destruct Hrow as (_ & Hpid & _). rewrite Hpid.
    specialize (Hcols (Item.product_id item)). rewrite Hp in Hcols.
    destruct (products (cur d') !! Item.product_id item) as [p'|];
      [|done].
    injection Hcols as _ Hname _. simpl. by rewrite Hname.
  - assert (negb (String.eqb (userRole who) "admin")
            && negb (uid =? userId who) = true) as ->; [|done].
    apply andb_true_iff. split; apply negb_true_iff.
    + apply String.eqb_neq. intros Hadm. apply Hallowed. by left.
    + apply Z.eqb_neq. intros Hu. apply Hallowed. by right.
Qed.
End RoundTrip.

Lemma createSale_then_getSale_witness :
  let sold := createSale "INV-2" 7
                (Shop.order [Shop.unitsA 1; Shop.unitsB 1] (JNum 14))
                Shop.after_first_sale in
  (∃ sale lines,
     getSale Desk.rowid_of_text "2" Desk.ann sold.1 = SaleFound sale lines
     ∧ Sale.invoice_number sale = "INV-2"
     ∧ length lines = 2%nat)
  ∧ getSale Desk.rowid_of_text "2" Desk.bob sold.1
    = SaleError 403 PermissionDenied.
Proof.
  assert (∀ who,
    if bool_decide (userRole who = "admin" ∨ userId who = 7) then
      ∃ lines,
        getSale Desk.rowid_of_text "2" who
          (createSale "INV-2" 7
             (Shop.order [Shop.unitsA 1; Shop.unitsB 1] (JNum 14))
             Shop.after_first_sale).1
        = SaleFound
            (Sale.mk 2 "INV-2" 7 (JStr "Walk-in Customer") (JNum 0) (JNum 0)
               (JNum 0) (JNum 14) (JStr "cash")) lines
        ∧ Forall2 (λ item line,
                     row_of_item 2 item line.1
                     ∧ ∃ p, products (cur Shop.after_first_sale)
                              !! Item.product_id item = Some p
                            ∧ line.2 = Some (Product.name p))
            [Shop.unitsA 1; Shop.unitsB 1] lines
    else getSale Desk.rowid_of_text "2" who
           (createSale "INV-2" 7
              (Shop.order [Shop.unitsA 1; Shop.unitsB 1] (JNum 14))
              Shop.after_first_sale).1
         = SaleError 403 PermissionDenied) as Hget.
  { intros who.
    apply (createSale_then_getSale Desk.rowid_of_text "INV-2" 7
             (Shop.order [Shop.unitsA 1; Shop.unitsB 1] (JNum 14))
             Shop.after_first_sale _ 2 2%nat (JNum 14) "2" who).
    - reflexivity.
    - intros row. vm_compute. intros Hin.
      apply list_elem_of_singleton in Hin as ->. apply list_elem_of_here.
    - by vm_compute.
    - by vm_compute.
    - reflexivity.
    - done. }
  cbv zeta. split.
  - specialize (Hget Desk.ann).
    rewrite bool_decide_eq_true_2 in Hget by (by right).
    destruct Hget as (lines & Hfound & Hlines).
    eexists _, lines. split; [exact Hfound|]. split; [done|].
    by apply Forall2_length in Hlines.
  - specialize (Hget Desk.bob).
    rewrite bool_decide_eq_false_2 in Hget; [exact Hget|].
    by intros [?|?].
Defined.

Section AfterVoid.
Variable rowid_of_text : string → option Z.

(** X13. A voided sale cannot be read any more: after a successful
    [voidSale], the single-sale handler answers 404 to every caller, admin
    included, for every parameter that reads as the voided id. *)
Theorem voidSale_then_getSale sid d id who :
  txn d = None →
  (voidSale sid d).2 = Response 200 SaleVoided →
  rowid_of_text id = Some sid →
  ∃ e, getSale rowid_of_text id who (voidSale sid d).1 = SaleError 404 e.
Proof.
  intros Ht Hok Hid.
  destruct (decide (sid ∈ Sale.id <$> sales (cur d))) as [Hin|Hnot].
  2:{ destruct (voidSale_missing sid d Ht Hnot) as (d2 & Hv & _).
      by rewrite Hv in Hok. }
  destruct (voidSale_existing sid d Ht Hin) as (d2 & Hv & _ & Hs & _).
  rewrite Hv. cbn [fst]. unfold getSale.
  destruct (String.eqb id "reports"); [by eexists|].
  unfold select_sale. rewrite Hid, Hs, list_filter_filter.
  rewrite filter_keeps_none; [by eexists|].
  apply Forall_forall. by intros s _ [? ?].
Qed.
End AfterVoid.

Lemma voidSale_then_getSale_witness :
  getSale Desk.rowid_of_text "1" Desk.admin (voidSale 1 Shop.after_first_sale).1
  = SaleError 404 SaleMissing.
Proof.
  destruct (voidSale_then_getSale Desk.rowid_of_text 1 Shop.after_first_sale
              "1" Desk.admin) as [e He];
    [reflexivity|by vm_compute|reflexivity|].
  rewrite He. f_equal.
  assert (getSale Desk.rowid_of_text "1" Desk.admin
            (voidSale 1 Shop.after_first_sale).1
          = SaleError 404 SaleMissing) as Hc by (by vm_compute).
  rewrite He in Hc. by injection Hc.
Defined.

(** ** The middleware *)

Lemma split_nonempty sep s : ∃ w rest, split sep s = w :: rest.
Proof.
  induction s as [|c s (w & rest & IH)]; simpl; [by eexists _, _|].
  destruct (Ascii.eqb c sep); [by eexists _, _|].
  rewrite IH. by eexists _, _.
Qed.

Lemma split_free sep s : free_of sep s = true → split sep s = [s].
Proof.
  induction s as [|c s IH]; simpl; [done|].
  intros [Hc Hs]%andb_true_iff. apply negb_true_iff in Hc.
  by rewrite Hc, (IH Hs).
Qed.

Lemma split_at_sep sep w rest :
  free_of sep w = true →
  split sep (w +:+ String sep rest) = w :: split sep rest.
Proof.
  induction w as [|c w IH]; simpl.
  - intros _. by rewrite Ascii.eqb_refl.
  - intros [Hc Hw]%andb_true_iff. apply negb_true_iff in Hc.
    by rewrite Hc, (IH Hw).
Qed.

(** A text either has no separator or splits at its first one. *)
Lemma first_sep sep s :
  free_of sep s = true
  ∨ ∃ w rest, free_of sep w = true ∧ s = w +:+ String sep rest.
Proof.
  induction s as [|c s IH]; simpl; [by left|].
  destruct (Ascii.eqb_spec c sep) as [->|Hne]; simpl.
  - right. by exists "", s.
  - destruct IH as [->|(w & rest & Hw & ->)]; [by left|].
    right. exists (String c w), rest. simpl.
    by rewrite (proj2 (Ascii.eqb_neq c sep) Hne), Hw.
Qed.

Lemma head_split_empty sep s :
  head (split sep s) = Some "" ↔ s = "" ∨ ∃ m, s = String sep m.
Proof.
  destruct s as [|c s]; simpl; [by split; [left|]|].
  destruct (Ascii.eqb_spec c sep) as [->|Hne]; simpl.
  - split; [right; by eexists|done].
  - destruct (split_nonempty sep s) as (w & rest & ->). simpl.
    split; [done|]. intros [?|(m & [= ? _])]; done.
Qed.

Lemma append_nonempty (w : string) c rest : w +:+ String c rest ≠ "".
Proof. by destruct w. Qed.

(** What [verifyToken] has established when it calls [next()]. *)
Lemma verifyToken_inr jwt_verify authHeader who :
  verifyToken jwt_verify authHeader = inr who →
  ∃ token decoded,
    header_token authHeader = Some token
    ∧ token ≠ ""
    ∧ jwt_verify token = Some decoded
    ∧ who = mkIdentity (Claims.id decoded) (Claims.role decoded)
              (Some (Claims.email decoded)).
Proof.
  unfold verifyToken.
  destruct (header_token authHeader) as [token|]; simpl; [|done].
  destruct (String.eqb_spec token "") as [|Hne]; [done|].
  destruct (jwt_verify token) as [decoded|] eqn:Ev; [|done].
  intros [= <-]. by exists token, decoded.
Qed.

Lemma append_empty_r (s : string) : s +:+ "" = s.
Proof.
  induction s as [|c s IH]; [done|].
  change (String c (s +:+ "") = String c s). by f_equal.
Qed.

(** X14. [verifyToken] reads the token as the second space-separated
    field of the Authorization header and nothing else: for a header made
    of any first word, one space and a non-empty token, with or without
    further fields, the outcome is decided by [jwt.verify] on that token
    (401 when it fails, otherwise the decoded id, role and email are
    attached).  The first word is never compared with 'Bearer'. *)
Theorem verifyToken_reads_second_field jwt_verify scheme token more :
  free_of space scheme = true →
  free_of space token = true →
  token ≠ "" →
  let tail := match more with
              | Some m => String space m
              | None => ""
              end in
  verifyToken jwt_verify (Some (scheme +:+ String space (token +:+ tail)))
  = match jwt_verify token with
    | Some decoded =>
        inr (mkIdentity (Claims.id decoded) (Claims.role decoded)
               (Some (Claims.email decoded)))
    | None => inl (Denied 401 InvalidToken)
    end.
Proof.
  intros Hs Ht Hne tail.
  assert (header_token (Some (scheme +:+ String space (token +:+ tail)))
          = Some token) as Htok.
  { unfold header_token.
    rewrite (proj2 (String.eqb_neq _ _) (append_nonempty _ _ _)).
    rewrite split_at_sep by done. unfold tail.
    destruct more as [m|]; cbv match.
    - by rewrite split_at_sep.
    - by rewrite append_empty_r, split_free. }
  unfold verifyToken. rewrite Htok. simpl.
  by rewrite (proj2 (String.eqb_neq _ _) Hne).
Qed.

Lemma verifyToken_reads_second_field_witness :
  verifyToken Desk.jwt_verify (Some "Basic t-admin and more")
  = inr Desk.admin
  ∧ verifyToken Desk.jwt_verify (Some "Bearer t-bob")
    = inl (Denied 401 InvalidToken).
Proof.
  split.
  - apply (verifyToken_reads_second_field Desk.jwt_verify "Basic" "t-admin"
             (Some "and more")); done.
  - apply (verifyToken_reads_second_field Desk.jwt_verify "Bearer" "t-bob"
             None); done.
Defined.

(** X15. [verifyToken] answers 403 "No token provided" exactly when the
    Authorization header is absent, contains no space, or has an empty
    second field (the first space is the last character or is followed by
    another space); [jwt.verify] plays no part in this answer. *)
Theorem verifyToken_no_token jwt_verify authHeader :
  verifyToken jwt_verify authHeader = inl (Denied 403 NoTokenProvided)
  ↔ authHeader = None
    ∨ ∃ h, authHeader = Some h
           ∧ (free_of space h = true
              ∨ ∃ scheme rest,
                  free_of space scheme = true
                  ∧ h = scheme +:+ String space rest
                  ∧ (rest = "" ∨ ∃ m, rest = String space m)).
Proof.
  assert (verifyToken jwt_verify authHeader = inl (Denied 403 NoTokenProvided)
          ↔ no_token (header_token authHeader) = true) as ->.
  { unfold verifyToken. destruct (no_token (header_token authHeader)); [done|].
    split; [|done]. by destruct (jwt_verify _). }
  destruct authHeader as [h|]; [|by split; [left|]].
  split.
  - intros Hno. right. exists h. split; [done|].
    destruct (first_sep space h) as [Hfree|(w & rest & Hw & ->)]; [by left|].
    right. exists w, rest. split_and!; [done..|].
    unfold header_token in Hno.
    rewrite (proj2 (String.eqb_neq _ _) (append_nonempty _ _ _)) in Hno.
    rewrite split_at_sep in Hno by done. simpl in Hno.
    apply head_split_empty.
    destruct (split_nonempty space rest) as (x & xs & Hx).
    rewrite Hx in Hno |- *. simpl in *.
    by apply String.eqb_eq in Hno as ->.
  - intros [?|(h' & [= <-] & [Hfree|(w & rest & Hw & -> & Hrest)])]; [done|..].
    + unfold header_token. destruct (String.eqb_spec h "") as [->|]; [done|].
      by rewrite split_free.
    + unfold header_token.
      rewrite (proj2 (String.eqb_neq _ _) (append_nonempty _ _ _)).
      rewrite split_at_sep by done. simpl.
      apply head_split_empty in Hrest.
      destruct (split space rest) as [|x xs]; [done|].
      simpl in *. by simplify_eq.
Qed.

(** ** The routes *)

(** X16. Only an admin can void: the DELETE route either runs the voider,
    and then the header carries a non-empty token that [jwt.verify]
    accepts with the role 'admin', or it answers with a denial of the
    middleware and returns the database untouched. *)
Theorem delete_sales_admin_only jwt_verify authHeader sid d :
  let out := delete_sales jwt_verify authHeader sid d in
  (∃ token decoded,
     header_token authHeader = Some token
     ∧ token ≠ ""
     ∧ jwt_verify token = Some decoded
     ∧ Claims.role decoded = "admin"
     ∧ out = ((voidSale sid d).1, inr (voidSale sid d).2))
  ∨ (out.1 = d ∧ ∃ deny, out.2 = inl deny).
Proof.
  unfold delete_sales.
  destruct (verifyToken jwt_verify authHeader) as [deny|who] eqn:Ev;
    [right; by eauto|].
  apply verifyToken_inr in Ev as (token & decoded & Htok & Hne & Hv & ->).
  unfold isAdmin. cbn [userRole].
  destruct (String.eqb_spec (Claims.role decoded) "admin") as [Hadm|Hadm];
    simpl; [|right; by eauto].
  left. exists token, decoded. split_and!; try done.
  by destruct (voidSale sid d).
Qed.

(** The rows that the header INSERT can add carry the caller and the
    invoice number. *)
Lemma sales_insert_header_new inv uid body d s :
  s ∈ sales (cur (insert_header inv uid body d)) →
  s ∈ sales (cur d) ∨ (Sale.user_id s = uid ∧ Sale.invoice_number s = inv).
Proof.
  unfold insert_header, insert_sale. case_match; simpl; [|by left].
  rewrite elem_of_app, list_elem_of_singleton. intros [?| ->]; [by left|].
  by right.
Qed.

Lemma createSale_new_rows inv uid body d d' r s :
  txn d = None →
  createSale inv uid body d = (d', r) →
  s ∈ sales (cur d') → s ∉ sales (cur d) →
  Sale.user_id s = uid ∧ Sale.invoice_number s = inv.
Proof.
  intros Ht H Hin Hnew.
  destruct (createSale_cases _ _ _ _ _ _ Ht H)
    as [[_ ->]|[(_ & Hc & _)|(dn & _ & _ & E & -> & _)]];
    [done|by rewrite Hc in Hin|].
  cbv zeta in E. cbn [cur] in Hin.
  destruct (run_items_rows _ _ _ _ E) as (_ & Hs & _). rewrite Hs in Hin.
  apply sales_insert_header_new in Hin as [Hin|?]; [|done].
  by rewrite sales_begin_transaction in Hin.
Qed.

(** X17. Sales are attributed to the authenticated caller: every row
    that a POST to the sales route adds to [sales] carries the id that
    [jwt.verify] decoded from the token of the header, whatever the role
    and whatever the body says, and the generated invoice number. *)
Theorem post_sales_attribution jwt_verify authHeader inv body d d' out s :
  txn d = None →
  post_sales jwt_verify authHeader inv body d = (d', out) →
  s ∈ sales (cur d') → s ∉ sales (cur d) →
  ∃ token decoded,
    header_token authHeader = Some token
    ∧ jwt_verify token = Some decoded
    ∧ Sale.user_id s = Claims.id decoded
    ∧ Sale.invoice_number s = inv.
Proof.
  intros Ht H Hin Hnew. unfold post_sales in H.
  destruct (verifyToken jwt_verify authHeader) as [deny|who] eqn:Ev;
    [by simplify_eq|].
  apply verifyToken_inr in Ev as (token & decoded & Htok & _ & Hv & ->).
  cbn [userId] in H.
  destruct (createSale inv (Claims.id decoded) body d) as [d1 r] eqn:E.
  simplify_eq.
  destruct (createSale_new_rows _ _ _ _ _ _ s Ht E Hin Hnew) as [? ?].
  by exists token, decoded.
Qed.

Lemma post_sales_attribution_witness :
  let run := post_sales Desk.jwt_verify (Some "Bearer t-ann") "INV-1"
               (Shop.order [Shop.unitsA 1] (JNum 10)) Shop.empty in
  Sale.user_id <$> sales (cur run.1) = [7]
  ∧ ∃ token decoded,
      header_token (Some "Bearer t-ann") = Some token
      ∧ Desk.jwt_verify token = Some decoded
      ∧ 7 = Claims.id decoded.
Proof.
  split; [by vm_compute|].
  destruct (post_sales_attribution Desk.jwt_verify (Some "Bearer t-ann")
              "INV-1" (Shop.order [Shop.unitsA 1] (JNum 10)) Shop.empty
              (post_sales Desk.jwt_verify (Some "Bearer t-ann") "INV-1"
                 (Shop.order [Shop.unitsA 1] (JNum 10)) Shop.empty).1
              (inr (Response 201 (SaleCompleted "INV-1" 1 1 (JNum 10))))
              (Sale.mk 1 "INV-1" 7 (JStr "Walk-in Customer") (JNum 0)
                 (JNum 0) (JNum 0) (JNum 10) (JStr "cash")))
    as (token & decoded & ? & ? & ? & _).
  - reflexivity.
  - by vm_compute.
  - vm_compute. apply list_elem_of_here.
  - vm_compute. apply not_elem_of_nil.
  - by exists token, decoded.
Defined.

(** ** Retrying a failed sale *)

Lemma processItem_sim saleId item d e snap :
  same_for_items d e →
  txn d = Some snap →
  match processItem saleId item d with
  | inl d' => ∃ e', processItem saleId item e = inl e' ∧ same_for_items d' e'
  | inr stop => processItem saleId item e = inr stop
  end.
Proof.
  destruct d as [[ud pd sd qd id sqd] td ld], e as [[ue pe se qe ie sqe] te le].
  unfold same_for_items. simpl. intros (-> & -> & Hids & -> & -> & -> & ->) ->.
  unfold processItem, select_product, rollback. simpl.
  destruct (pe !! Item.product_id item) as [product|]; [|done].
  destruct (Product.quantity product <? Item.quantity item); [done|].
  eexists. split; [done|].
  unfold insert_sale_item, sale_items_insert_ok. simpl. rewrite Hids.
  destruct (bool_decide (saleId ∈ Sale.id <$> se) && _); simpl; done.
Qed.

Lemma run_items_sim saleId items d e snap :
  same_for_items d e →
  txn d = Some snap →
  match run_items saleId items d with
  | inl d' => ∃ e', run_items saleId items e = inl e' ∧ same_for_items d' e'
  | inr stop => run_items saleId items e = inr stop
  end.
Proof.
  revert d e. induction items as [|item rest IH]; intros d e Hsim Ht;
    cbn [run_items]; [by exists e|].
  pose proof (processItem_sim saleId item d e snap Hsim Ht) as Hstep.
  destruct (processItem saleId item d) as [d1|stop] eqn:E.
  - destruct Hstep as (e1 & -> & Hsim1). apply IH; [done|].
    by rewrite (processItem_txn _ _ _ _ E).
  - by rewrite Hstep.
Qed.

(** X18. A failed sale can be retried without surprise: when
    [createSale] has answered with an error, calling it again with the
    same body and caller, under a newly generated invoice number, returns
    the same error and the very database that the first call returned;
    nothing accumulates.  (Both invoice numbers are ones the header INSERT
    accepts.) *)
Theorem createSale_retry inv1 inv2 uid body d d1 r :
  txn d = None →
  sales_insert_ok (cur d) inv1 uid
    (js_or (Body.payment_method body) (JStr "cash")) = true →
  sales_insert_ok (cur d) inv2 uid
    (js_or (Body.payment_method body) (JStr "cash")) = true →
  createSale inv1 uid body d = (d1, r) →
  (∀ sid n gt, r ≠ Response 201 (SaleCompleted inv1 sid n gt)) →
  createSale inv2 uid body d1 = (d1, r).
Proof.
  intros Ht Hok1 Hok2 H Hfail.
  destruct (items_rejected (Body.items body)) eqn:Ei.
  { rewrite createSale_rejected in H |- * by done. by simplify_eq. }
  destruct (truthy (Body.grand_total body)) eqn:Eg.
  2:{ rewrite createSale_no_total in H |- * by done. by simplify_eq. }
  rewrite createSale_accepted in H |- * by done. cbv zeta in H |- *.
  rewrite processNext_run_items in H |- *.
  destruct (insert_header_row inv1 uid body (begin_transaction d))
    as (Hrow1 & _ & Hlast1); [by rewrite cur_begin_transaction|].
  rewrite cur_begin_transaction in Hrow1, Hlast1.
  set (dh1 := insert_header inv1 uid body (begin_transaction d)) in *.
  assert (txn dh1 = Some (cur d)) as Ht1.
  { unfold dh1. by rewrite txn_insert_header, txn_begin. }
  destruct (run_items (last_insert_rowid dh1) (items_list (Body.items body))
              dh1) as [dn|stop] eqn:E.
  { exfalso. simpl in H.
    rewrite (commit_open dn (cur d)) in H
      by (by rewrite (run_items_txn _ _ _ _ E)).
    simplify_eq. by eapply Hfail. }
  subst stop.
  destruct (run_items_inr _ _ _ _ _ Ht1 E) as (Hcur & Htxn & _).
  cbn [fst] in Hcur, Htxn.
  destruct (insert_header_row inv2 uid body (begin_transaction d1))
    as (Hrow2 & _ & Hlast2);
    [by rewrite cur_begin_transaction, Hcur|].
  rewrite cur_begin_transaction, Hcur in Hrow2, Hlast2.
  set (dh2 := insert_header inv2 uid body (begin_transaction d1)) in *.
  assert (same_for_items dh1 dh2) as Hsim.
  { destruct (header_preserves inv1 uid body d) as (Hp1 & Hi1 & Hu1).
    destruct (header_preserves inv2 uid body d1) as (Hp2 & Hi2 & Hu2).
    cbv zeta in *. fold dh1 in Hp1, Hi1, Hu1. fold dh2 in Hp2, Hi2, Hu2.
    assert (sale_items_seq (cur dh1) = sale_items_seq (cur dh2)) as Hq.
    { unfold dh1, dh2, insert_header, insert_sale.
      rewrite !cur_begin_transaction, Hcur, Hok1, Hok2. done. }
    unfold same_for_items.
    rewrite Hu1, Hu2, Hp1, Hp2, Hi1, Hi2, Hcur, Hrow1, Hrow2, Hlast1, Hlast2.
    split_and!; try done.
    - by rewrite !fmap_app.
    - unfold dh2. by rewrite Ht1, txn_insert_header, txn_begin, Hcur. }
  pose proof (run_items_sim (last_insert_rowid dh1)
                (items_list (Body.items body)) dh1 dh2 _ Hsim Ht1) as Hrun.
  rewrite E in Hrun. rewrite Hlast2, <-Hlast1. by rewrite Hrun.
Qed.

Lemma createSale_retry_witness :
  let body := Shop.order [Shop.unitsA 2; Shop.unitsA 4] (JNum 60) in
  let first := createSale "INV-5" 7 body Shop.after_first_sale in
  first.2 = Response 400 (Failure (NotEnoughStock "A" 1 4))
  ∧ createSale "INV-6" 7 body first.1 = first.
Proof.
  split; [by vm_compute|].
  rewrite (surjective_pairing
             (createSale "INV-5" 7
                (Shop.order [Shop.unitsA 2; Shop.unitsA 4] (JNum 60))
                Shop.after_first_sale)) at 2.
  apply (createSale_retry "INV-5" "INV-6" 7
           (Shop.order [Shop.unitsA 2; Shop.unitsA 4] (JNum 60))
           Shop.after_first_sale).
  - reflexivity.
  - by vm_compute.
  - by vm_compute.
  - apply surjective_pairing.
  - intros sid n gt. by vm_compute.
Defined.

(** ** Reading a sale through its route *)

(** X19. Through the GET route a sale is disclosed only to a token of an
    admin or of its creator: when the route answers with a sale, the
    header carries a token that [jwt.verify] accepts, and the decoded role
    is 'admin' or the decoded id is the sale's [user_id]; the sale is a
    row of [sales] with the requested id. *)
Theorem get_sales_disclosure jwt_verify rowid_of_text authHeader id d
    sale lines :
  get_sales jwt_verify rowid_of_text authHeader id d
  = inr (SaleFound sale lines) →
  ∃ token decoded,
    header_token authHeader = Some token
    ∧ jwt_verify token = Some decoded
    ∧ (Claims.role decoded = "admin" ∨ Sale.user_id sale = Claims.id decoded)
    ∧ sale ∈ sales (cur d)
    ∧ rowid_of_text id = Some (Sale.id sale).
Proof.
  unfold get_sales.
  destruct (verifyToken jwt_verify authHeader) as [deny|who] eqn:Ev; [done|].
  apply verifyToken_inr in Ev as (token & decoded & Htok & _ & Hv & ->).
  intros [= (_ & Hid & Hin & Hwho & _)%getSale_found_facts].
  by exists token, decoded.
Qed.

Lemma get_sales_disclosure_witness :
  ∃ sale lines token decoded,
    get_sales Desk.jwt_verify Desk.rowid_of_text (Some "Bearer t-ann") "1"
      Shop.after_first_sale = inr (SaleFound sale lines)
    ∧ Desk.jwt_verify token = Some decoded
    ∧ Sale.user_id sale = Claims.id decoded.
Proof.
  destruct (get_sales Desk.jwt_verify Desk.rowid_of_text (Some "Bearer t-ann")
              "1" Shop.after_first_sale) as [deny|[code e|sale lines]] eqn:E;
    [by vm_compute in E..|].
  destruct (get_sales_disclosure _ _ _ _ _ _ _ E)
    as (token & decoded & Htok & Hv & [Hadm|Hown] & _).
  - exfalso. vm_compute in Htok. simplify_eq. by vm_compute in Hv; simplify_eq.
  - by exists sale, lines, token, decoded.
Defined.

(** [optionalAuth] attaches an identity exactly when [verifyToken] would
    let the request pass, with the same id and role and no email. *)
Lemma optionalAuth_verifyToken jwt_verify authHeader :
  optionalAuth jwt_verify authHeader
  = match verifyToken jwt_verify authHeader with
    | inr who => Some (mkIdentity (userId who) (userRole who) None)
    | inl _ => None
    end.
Proof.
  unfold optionalAuth, verifyToken.
  destruct (no_token (header_token authHeader)); [done|].
  by destruct (jwt_verify _).
Qed.
